(** * net::HttpRequest (http_client.hpp): a shallow embedding

    The wrapper owns one libcurl easy handle, a [curl_slist] of outgoing
    header lines, three strings, the response under accumulation and a
    fixed-size error buffer.  Every method is a state transformer on that
    object; [perform] is the only place where the transfer engine runs, and
    the engine is a parameter of the model (its answer is not decided by the
    wrapper). *)

From Stdlib Require Import ZArith List String Ascii Bool Lia.
Import ListNotations.
Local Open Scope string_scope.

(** ** C strings and character arrays *)

Module CStr.

Definition NUL : ascii := Ascii.zero.

Definition is_nul (c : ascii) : bool := Ascii.eqb c NUL.

(** What a [const char*] consumer reads from [s.c_str()]: the characters
    before the first NUL of the [std::string]. *)
Fixpoint c_str (s : string) : string :=
  match s with
  | EmptyString => EmptyString
  | String c r => if is_nul c then EmptyString else String c (c_str r)
  end.

(** [buf[0]] of a character array. *)
Definition peek0 (buf : string) : ascii :=
  match buf with
  | EmptyString => NUL
  | String c _ => c
  end.

(** [buf[0] = '\0']: the other cells of the array keep their contents. *)
Definition poke0 (buf : string) : string :=
  match buf with
  | EmptyString => EmptyString
  | String _ r => String NUL r
  end.

(** Copy [src] over the front of the array [dst], never past its end. *)
Fixpoint overwrite (src dst : string) : string :=
  match src, dst with
  | EmptyString, _ => dst
  | String _ _, EmptyString => EmptyString
  | String c r, String _ d => String c (overwrite r d)
  end.

(** A bounded, NUL-terminated store into an array of [n] cells. *)
Definition store_cstr (n : nat) (msg buf : string) : string :=
  overwrite (substring 0 (n - 1) (c_str msg) ++ String NUL EmptyString) buf.

(** An array of [n] zero bytes ([char a[n]{}]). *)
Fixpoint zeros (n : nat) : string :=
  match n with
  | O => EmptyString
  | S k => String NUL (zeros k)
  end.

(** [std::string::empty()] / [std::string_view::empty()]. *)
Definition empty (s : string) : bool :=
  match s with
  | EmptyString => true
  | String _ _ => false
  end.

(** A string without a NUL byte is its own C string. *)
Definition nul_free (s : string) : Prop := c_str s = s.

End CStr.
Import CStr.

(** ** struct HttpResponse *)

Record HttpResponse := mkHttpResponse {
  status : Z;
  body : string;
  headers : list string
}.

(** [HttpResponse{}]: the default member initialisers. *)
Definition HttpResponse_default : HttpResponse :=
  {| status := 0; body := EmptyString; headers := [] |}.

(** ** The part of libcurl's easy interface that the wrapper drives *)

Module Curl.

Definition CURLcode := Z.
Definition CURLE_OK : CURLcode := 0%Z.

(** [CURL_ERROR_SIZE] of curl.h. *)
Definition CURL_ERROR_SIZE : nat := 256.

(** The request kind a handle is set to.  [CURLOPT_HTTPGET], [CURLOPT_POST]
    and [CURLOPT_POSTFIELDS] all write this one selector;
    [CURLOPT_CUSTOMREQUEST] does not: it only replaces the method word of
    the request line. *)
Inductive HttpReq := HTTPREQ_GET | HTTPREQ_POST.

(** What a pointer registered with the handle designates when the transfer
    reads through it.  [CURLOPT_POSTFIELDS] is not copied by libcurl: the
    handle keeps the pointer it was given.  It is [live] with the bytes of
    the buffer while the owner of the buffer has not been assigned, and
    [stale] once it has: the transfer then reads whatever the storage holds
    (the first bytes of the new contents where a short string lives inside
    the string object, anything where a heap buffer was released). *)
Inductive Pointee :=
| live (bytes : string)
| stale.

(** Identity of an object handed to the engine as callback user data. *)
Definition object_id := N.

(** A data sink: receives one delivered block and the response it
    accumulates into; reports how many bytes it consumed. *)
Definition sink := string -> HttpResponse -> HttpResponse * nat.

Record CURL := mkCURL {
  opt_url : option string;
  opt_timeout_ms : Z;
  opt_followlocation : Z;
  opt_useragent : option string;
  opt_errorbuffer : bool;
  opt_writefunction : option sink;
  opt_writedata : option object_id;
  opt_headerfunction : option sink;
  opt_headerdata : option object_id;
  opt_httpheader : option (list string);
  opt_customrequest : option string;
  method : HttpReq;
  opt_postfields : option Pointee;
  opt_postfieldsize : Z
}.

(** The state of a handle as [curl_easy_init] returns it. *)
Definition easy_defaults : CURL :=
  {| opt_url := None;
     opt_timeout_ms := 0;
     opt_followlocation := 0;
     opt_useragent := None;
     opt_errorbuffer := false;
     opt_writefunction := None;
     opt_writedata := None;
     opt_headerfunction := None;
     opt_headerdata := None;
     opt_httpheader := None;
     opt_customrequest := None;
     method := HTTPREQ_GET;
     opt_postfields := None;
     opt_postfieldsize := (-1) |}.

(** [curl_easy_init()]: a handle, or NULL. *)
Definition curl_easy_init (available : bool) : option CURL :=
  if available then Some easy_defaults else None.

(** The options the wrapper sets, each with the argument it passes.
    String arguments are [const char*]; libcurl copies them, except for
    [CURLOPT_POSTFIELDS]: the pointer is kept and the data are read at
    transfer time, for [CURLOPT_POSTFIELDSIZE] bytes.  The argument of
    [CURLOPT_POSTFIELDS] is the contents of the buffer the pointer
    designates when the option is set; the pointer goes [stale] when its
    owner is assigned later ([invalidate_postfields]).  [post()] and [put()]
    set it right before their exchange; [get()] and [del()] do not touch
    it.  [CURLOPT_HTTPHEADER] is kept by reference as well; [perform]
    attaches the current list before every exchange, and the list is only
    ever appended to. *)
Inductive CURLoption :=
| CURLOPT_URL (s : string)
| CURLOPT_TIMEOUT_MS (ms : Z)
| CURLOPT_FOLLOWLOCATION (v : Z)
| CURLOPT_USERAGENT (s : string)
| CURLOPT_ERRORBUFFER
| CURLOPT_WRITEFUNCTION (f : sink)
| CURLOPT_WRITEDATA (p : object_id)
| CURLOPT_HEADERFUNCTION (f : sink)
| CURLOPT_HEADERDATA (p : object_id)
| CURLOPT_HTTPGET (v : Z)
| CURLOPT_CUSTOMREQUEST (s : string)
| CURLOPT_POST (v : Z)
| CURLOPT_POSTFIELDS (data : string)
| CURLOPT_POSTFIELDSIZE (n : Z)
| CURLOPT_HTTPHEADER (l : list string).

Definition set_method (m : HttpReq) (e : CURL) : CURL :=
  mkCURL (opt_url e) (opt_timeout_ms e) (opt_followlocation e)
    (opt_useragent e) (opt_errorbuffer e) (opt_writefunction e)
    (opt_writedata e) (opt_headerfunction e) (opt_headerdata e)
    (opt_httpheader e) (opt_customrequest e) m (opt_postfields e)
    (opt_postfieldsize e).

Definition curl_easy_setopt (e : CURL) (o : CURLoption) : CURL :=
  match o with
  | CURLOPT_URL s =>
      mkCURL (Some s) (opt_timeout_ms e) (opt_followlocation e)
        (opt_useragent e) (opt_errorbuffer e) (opt_writefunction e)
        (opt_writedata e) (opt_headerfunction e) (opt_headerdata e)
        (opt_httpheader e) (opt_customrequest e) (method e)
        (opt_postfields e) (opt_postfieldsize e)
  | CURLOPT_TIMEOUT_MS ms =>
      mkCURL (opt_url e) ms (opt_followlocation e)
        (opt_useragent e) (opt_errorbuffer e) (opt_writefunction e)
        (opt_writedata e) (opt_headerfunction e) (opt_headerdata e)
        (opt_httpheader e) (opt_customrequest e) (method e)
        (opt_postfields e) (opt_postfieldsize e)
  | CURLOPT_FOLLOWLOCATION v =>
      mkCURL (opt_url e) (opt_timeout_ms e) v
        (opt_useragent e) (opt_errorbuffer e) (opt_writefunction e)
        (opt_writedata e) (opt_headerfunction e) (opt_headerdata e)
        (opt_httpheader e) (opt_customrequest e) (method e)
        (opt_postfields e) (opt_postfieldsize e)
  | CURLOPT_USERAGENT s =>
      mkCURL (opt_url e) (opt_timeout_ms e) (opt_followlocation e)
        (Some s) (opt_errorbuffer e) (opt_writefunction e)
        (opt_writedata e) (opt_headerfunction e) (opt_headerdata e)
        (opt_httpheader e) (opt_customrequest e) (method e)
        (opt_postfields e) (opt_postfieldsize e)
  | CURLOPT_ERRORBUFFER =>
      mkCURL (opt_url e) (opt_timeout_ms e) (opt_followlocation e)
        (opt_useragent e) true (opt_writefunction e)
        (opt_writedata e) (opt_headerfunction e) (opt_headerdata e)
        (opt_httpheader e) (opt_customrequest e) (method e)
        (opt_postfields e) (opt_postfieldsize e)
  | CURLOPT_WRITEFUNCTION f =>
      mkCURL (opt_url e) (opt_timeout_ms e) (opt_followlocation e)
        (opt_useragent e) (opt_errorbuffer e) (Some f)
        (opt_writedata e) (opt_headerfunction e) (opt_headerdata e)
        (opt_httpheader e) (opt_customrequest e) (method e)
        (opt_postfields e) (opt_postfieldsize e)
  | CURLOPT_WRITEDATA p =>
      mkCURL (opt_url e) (opt_timeout_ms e) (opt_followlocation e)
        (opt_useragent e) (opt_errorbuffer e) (opt_writefunction e)
        (Some p) (opt_headerfunction e) (opt_headerdata e)
        (opt_httpheader e) (opt_customrequest e) (method e)
        (opt_postfields e) (opt_postfieldsize e)
  | CURLOPT_HEADERFUNCTION f =>
      mkCURL (opt_url e) (opt_timeout_ms e) (opt_followlocation e)
        (opt_useragent e) (opt_errorbuffer e) (opt_writefunction e)
        (opt_writedata e) (Some f) (opt_headerdata e)
        (opt_httpheader e) (opt_customrequest e) (method e)
        (opt_postfields e) (opt_postfieldsize e)
  | CURLOPT_HEADERDATA p =>
      mkCURL (opt_url e) (opt_timeout_ms e) (opt_followlocation e)
        (opt_useragent e) (opt_errorbuffer e) (opt_writefunction e)
        (opt_writedata e) (opt_headerfunction e) (Some p)
        (opt_httpheader e) (opt_customrequest e) (method e)
        (opt_postfields e) (opt_postfieldsize e)
  | CURLOPT_HTTPGET v =>
      if (v =? 0)%Z then e else set_method HTTPREQ_GET e
  | CURLOPT_CUSTOMREQUEST s =>
      mkCURL (opt_url e) (opt_timeout_ms e) (opt_followlocation e)
        (opt_useragent e) (opt_errorbuffer e) (opt_writefunction e)
        (opt_writedata e) (opt_headerfunction e) (opt_headerdata e)
        (opt_httpheader e) (Some s) (method e)
        (opt_postfields e) (opt_postfieldsize e)
  | CURLOPT_POST v =>
      if (v =? 0)%Z then set_method HTTPREQ_GET e
      else set_method HTTPREQ_POST e
  | CURLOPT_POSTFIELDS data =>
      mkCURL (opt_url e) (opt_timeout_ms e) (opt_followlocation e)
        (opt_useragent e) (opt_errorbuffer e) (opt_writefunction e)
        (opt_writedata e) (opt_headerfunction e) (opt_headerdata e)
        (opt_httpheader e) (opt_customrequest e) HTTPREQ_POST
        (Some (live data)) (opt_postfieldsize e)
  | CURLOPT_POSTFIELDSIZE n =>
      mkCURL (opt_url e) (opt_timeout_ms e) (opt_followlocation e)
        (opt_useragent e) (opt_errorbuffer e) (opt_writefunction e)
        (opt_writedata e) (opt_headerfunction e) (opt_headerdata e)
        (opt_httpheader e) (opt_customrequest e) (method e)
        (opt_postfields e) n
  | CURLOPT_HTTPHEADER l =>
      mkCURL (opt_url e) (opt_timeout_ms e) (opt_followlocation e)
        (opt_useragent e) (opt_errorbuffer e) (opt_writefunction e)
        (opt_writedata e) (opt_headerfunction e) (opt_headerdata e)
        (Some l) (opt_customrequest e) (method e)
        (opt_postfields e) (opt_postfieldsize e)
  end.

(** What the engine does during one [curl_easy_perform], as far as the
    wrapper can observe it. *)
Inductive Delivery :=
| BodyChunk (data : string)
| HeaderLine (data : string).

Record Outcome := mkOutcome {
  rc : CURLcode;
  deliveries : list Delivery;
  errtext : option string;
  response_code : Z
}.

(** The library as one call sees it: the transfer itself and the generic
    code-to-text table. *)
Record Engine := mkEngine {
  curl_easy_perform : CURL -> Outcome;
  curl_easy_strerror : CURLcode -> string
}.

(** The request a handle asks for.  The method word is the custom request
    string when one is set, else the word of the request kind. *)
Definition request_method (e : CURL) : string :=
  match opt_customrequest e with
  | Some m => m
  | None =>
      match method e with
      | HTTPREQ_GET => "GET"
      | HTTPREQ_POST => "POST"
      end
  end.

(** The bytes a POST-kind request carries: [CURLOPT_POSTFIELDSIZE] bytes of
    the registered data, or the data as a C string when the size is -1. *)
Definition postfields_bytes (data : string) (size : Z) : string :=
  if (size <? 0)%Z then c_str data
  else substring 0 (Z.to_nat size) data.

(** The owner of the registered POSTFIELDS buffer has been assigned: a
    pointer the handle holds into it is invalidated. *)
Definition invalidate_postfields (e : CURL) : CURL :=
  mkCURL (opt_url e) (opt_timeout_ms e) (opt_followlocation e)
    (opt_useragent e) (opt_errorbuffer e) (opt_writefunction e)
    (opt_writedata e) (opt_headerfunction e) (opt_headerdata e)
    (opt_httpheader e) (opt_customrequest e) (method e)
    (option_map (fun _ => stale) (opt_postfields e))
    (opt_postfieldsize e).

(** The outgoing payload: a handle whose request kind is GET sends none; a
    POST-kind handle sends the registered data with its length, or, with no
    data registered, whatever its read callback supplies.  Through a stale
    pointer it still sends a body of the registered size, read from storage
    the model does not know the contents of. *)
Inductive Payload :=
| no_body
| post_data (bytes : string) (size : Z)
| stale_data (size : Z)
| read_callback_data.

Definition request_payload (e : CURL) : Payload :=
  match method e with
  | HTTPREQ_GET => no_body
  | HTTPREQ_POST =>
      match opt_postfields e with
      | Some (live data) =>
          let bytes := postfields_bytes data (opt_postfieldsize e) in
          post_data bytes (Z.of_nat (String.length bytes))
      | Some stale => stale_data (opt_postfieldsize e)
      | None => read_callback_data
      end
  end.

End Curl.
Import Curl.

(** ** Exceptions *)

(** The wrapper throws [std::runtime_error] only; [what] is its message. *)
Inductive exception := runtime_error (what : string).

Inductive result (A : Type) :=
| Returned (a : A)
| Thrown (e : exception).

Arguments Returned {A} a.
Arguments Thrown {A} e.

(** ** class HttpRequest *)

(** The data members, in declaration order, preceded by the address of the
    object ([this]), which the constructor hands to the engine as callback
    user data.  [headers_] is the owned [curl_slist]: the null list is [[]].
    [errbuf_] points at [errbuf_storage_] and is not a cell of its own. *)
Record HttpRequest := mkHttpRequest {
  this : object_id;
  easy_ : CURL;
  headers_ : list string;
  url_ : string;
  user_agent_ : string;
  body_ : string;
  response_ : HttpResponse;
  errbuf_storage_ : string
}.

Definition with_easy (e : CURL) (h : HttpRequest) : HttpRequest :=
  mkHttpRequest (this h) e (headers_ h) (url_ h) (user_agent_ h) (body_ h)
    (response_ h) (errbuf_storage_ h).

Definition with_headers (l : list string) (h : HttpRequest) : HttpRequest :=
  mkHttpRequest (this h) (easy_ h) l (url_ h) (user_agent_ h) (body_ h)
    (response_ h) (errbuf_storage_ h).

Definition with_url (u : string) (h : HttpRequest) : HttpRequest :=
  mkHttpRequest (this h) (easy_ h) (headers_ h) u (user_agent_ h) (body_ h)
    (response_ h) (errbuf_storage_ h).

Definition with_user_agent (ua : string) (h : HttpRequest) : HttpRequest :=
  mkHttpRequest (this h) (easy_ h) (headers_ h) (url_ h) ua (body_ h)
    (response_ h) (errbuf_storage_ h).

Definition with_body (b : string) (h : HttpRequest) : HttpRequest :=
  mkHttpRequest (this h) (easy_ h) (headers_ h) (url_ h) (user_agent_ h) b
    (response_ h) (errbuf_storage_ h).

Definition with_response (r : HttpResponse) (h : HttpRequest) : HttpRequest :=
  mkHttpRequest (this h) (easy_ h) (headers_ h) (url_ h) (user_agent_ h)
    (body_ h) r (errbuf_storage_ h).

Definition with_errbuf (b : string) (h : HttpRequest) : HttpRequest :=
  mkHttpRequest (this h) (easy_ h) (headers_ h) (url_ h) (user_agent_ h)
    (body_ h) (response_ h) b.

(** [curl_easy_setopt(easy_.get(), ...)]. *)
Definition setopt (h : HttpRequest) (o : CURLoption) : HttpRequest :=
  with_easy (curl_easy_setopt (easy_ h) o) h.

(** *** The two data sinks *)

Definition write_body_cb : sink :=
  fun chunk r =>
    (mkHttpResponse (status r) (body r ++ chunk) (headers r),
     String.length chunk).

Definition write_header_cb : sink :=
  fun line r =>
    (mkHttpResponse (status r) (body r) (headers r ++ [line]),
     String.length line).

(** *** Configuration (fluent) *)

Definition set_url (url : string) (h : HttpRequest) : HttpRequest :=
  let h1 := with_url url h in
  setopt h1 (CURLOPT_URL (c_str (url_ h1))).

Definition set_timeout_ms (ms : Z) (h : HttpRequest) : HttpRequest :=
  setopt h (CURLOPT_TIMEOUT_MS ms).

Definition set_follow_redirects (yes : bool) (h : HttpRequest) : HttpRequest :=
  setopt h (CURLOPT_FOLLOWLOCATION (if yes then 1 else 0)%Z).

Definition set_user_agent (ua : string) (h : HttpRequest) : HttpRequest :=
  let h1 := with_user_agent ua h in
  setopt h1 (CURLOPT_USERAGENT (c_str (user_agent_ h1))).

(** [curl_slist_append] copies the C string onto the end of the list. *)
Definition curl_slist_append (l : list string) (s : string) : list string :=
  l ++ [s].

Definition add_header (hd : string) (h : HttpRequest) : HttpRequest :=
  with_headers (curl_slist_append (headers_ h) (c_str hd)) h.

(** [body_ = std::move(body)]: the member takes the new contents, and a
    pointer obtained from [body_.c_str()] before the assignment, such as the
    one an earlier [post()] or [put()] left on the handle, is invalidated. *)
Definition assign_body (b : string) (h : HttpRequest) : HttpRequest :=
  with_easy (invalidate_postfields (easy_ h)) (with_body b h).

Definition set_body (body : string) (content_type : string) (h : HttpRequest)
  : HttpRequest :=
  let h1 := assign_body body h in
  if negb (empty content_type)
  then add_header ("Content-Type: " ++ content_type) h1
  else h1.

(** *** Construction *)

Definition default_user_agent : string := "net::HttpRequest/1.0".

(** The constructor body once [curl_easy_init] has produced a handle. *)
Definition construct (self : object_id) (e : CURL) : HttpRequest :=
  let h0 := mkHttpRequest self e [] EmptyString EmptyString EmptyString
              HttpResponse_default (zeros CURL_ERROR_SIZE) in
  let h1 := set_follow_redirects true h0 in
  let h2 := set_timeout_ms 0 h1 in
  let h3 := set_user_agent default_user_agent h2 in
  let h4 := setopt h3 CURLOPT_ERRORBUFFER in
  let h5 := setopt h4 (CURLOPT_WRITEFUNCTION write_body_cb) in
  let h6 := setopt h5 (CURLOPT_WRITEDATA (this h5)) in
  let h7 := setopt h6 (CURLOPT_HEADERFUNCTION write_header_cb) in
  setopt h7 (CURLOPT_HEADERDATA (this h7)).

Definition HttpRequest_new (self : object_id) (handle : option CURL)
  : result HttpRequest :=
  match handle with
  | None => Thrown (runtime_error "curl_easy_init failed")
  | Some e => Returned (construct self e)
  end.

(** *** Execution *)

Definition reset_buffers (h : HttpRequest) : HttpRequest :=
  let h1 := with_response HttpResponse_default h in
  with_errbuf (poke0 (errbuf_storage_ h1)) h1.

(** One callback invocation made by the engine: the registered function is
    run on the object its user data designates; without a registered
    function the data goes to the library's default sink and the object is
    untouched. *)
Definition deliver (h : HttpRequest) (d : Delivery) : HttpRequest :=
  match d with
  | BodyChunk data =>
      match opt_writefunction (easy_ h), opt_writedata (easy_ h) with
      | Some f, Some p =>
          if (p =? this h)%N
          then with_response (fst (f data (response_ h))) h
          else h
      | _, _ => h
      end
  | HeaderLine data =>
      match opt_headerfunction (easy_ h), opt_headerdata (easy_ h) with
      | Some f, Some p =>
          if (p =? this h)%N
          then with_response (fst (f data (response_ h))) h
          else h
      | _, _ => h
      end
  end.

(** The effect of one [curl_easy_perform] on the object: the deliveries in
    order, then the diagnostic stored in the registered error buffer. *)
Definition engine_effect (o : Outcome) (h : HttpRequest) : HttpRequest :=
  let h1 := fold_left deliver (deliveries o) h in
  match errtext o with
  | Some msg =>
      if opt_errorbuffer (easy_ h1)
      then with_errbuf (store_cstr CURL_ERROR_SIZE msg (errbuf_storage_ h1)) h1
      else h1
  | None => h1
  end.

Definition perform (lib : Engine) (h : HttpRequest)
  : HttpRequest * result HttpResponse :=
  let h1 := match headers_ h with
            | [] => h
            | _ :: _ => setopt h (CURLOPT_HTTPHEADER (headers_ h))
            end in
  let o := curl_easy_perform lib (easy_ h1) in
  let h2 := engine_effect o h1 in
  if negb (rc o =? CURLE_OK)%Z then
    let msg := if negb (is_nul (peek0 (errbuf_storage_ h2)))
               then c_str (errbuf_storage_ h2)
               else curl_easy_strerror lib (rc o) in
    (h2, Thrown (runtime_error ("curl_easy_perform: " ++ msg)))
  else
    let r := response_ h2 in
    let h3 := with_response
                (mkHttpResponse (response_code o) (body r) (headers r)) h2 in
    (h3, Returned (response_ h3)).

(** [static_cast<long>(body_.size())]: value preserving, a [std::string]
    being shorter than [LONG_MAX] bytes. *)
Definition body_size (h : HttpRequest) : Z := Z.of_nat (String.length (body_ h)).

Definition get (lib : Engine) (h : HttpRequest) :=
  let h1 := reset_buffers h in
  let h2 := setopt h1 (CURLOPT_HTTPGET 1) in
  perform lib h2.

Definition del (lib : Engine) (h : HttpRequest) :=
  let h1 := reset_buffers h in
  let h2 := setopt h1 (CURLOPT_CUSTOMREQUEST "DELETE") in
  perform lib h2.

Definition post (lib : Engine) (h : HttpRequest) :=
  let h1 := reset_buffers h in
  let h2 := setopt h1 (CURLOPT_POST 1) in
  let h3 := setopt h2 (CURLOPT_POSTFIELDS (body_ h2)) in
  let h4 := setopt h3 (CURLOPT_POSTFIELDSIZE (body_size h3)) in
  perform lib h4.

Definition put (lib : Engine) (h : HttpRequest) :=
  let h1 := reset_buffers h in
  let h2 := setopt h1 (CURLOPT_CUSTOMREQUEST "PUT") in
  let h3 := setopt h2 (CURLOPT_POSTFIELDS (body_ h2)) in
  let h4 := setopt h3 (CURLOPT_POSTFIELDSIZE (body_size h3)) in
  perform lib h4.

(** *** The four verbs as one operation *)

Inductive Verb := GET | DELETE | POST | PUT.

Definition invoke (v : Verb) (lib : Engine) (h : HttpRequest)
  : HttpRequest * result HttpResponse :=
  match v with
  | GET => get lib h
  | DELETE => del lib h
  | POST => post lib h
  | PUT => put lib h
  end.

(** The handle on which [perform] runs the engine: the header list is
    attached when it is not null. *)
Definition transfer_handle (h : HttpRequest) : CURL :=
  match headers_ h with
  | [] => easy_ h
  | _ :: _ => curl_easy_setopt (easy_ h) (CURLOPT_HTTPHEADER (headers_ h))
  end.

(** The options a verb writes between [reset_buffers] and [perform]. *)
Definition select (v : Verb) (h : HttpRequest) : HttpRequest :=
  match v with
  | GET => setopt h (CURLOPT_HTTPGET 1)
  | DELETE => setopt h (CURLOPT_CUSTOMREQUEST "DELETE")
  | POST =>
      setopt (setopt (setopt h (CURLOPT_POST 1)) (CURLOPT_POSTFIELDS (body_ h)))
        (CURLOPT_POSTFIELDSIZE (body_size h))
  | PUT =>
      setopt (setopt (setopt h (CURLOPT_CUSTOMREQUEST "PUT"))
                (CURLOPT_POSTFIELDS (body_ h)))
        (CURLOPT_POSTFIELDSIZE (body_size h))
  end.

(** The handle the engine is run on when verb [v] is invoked on [h]. *)
Definition outgoing (v : Verb) (h : HttpRequest) : CURL :=
  transfer_handle (select v (reset_buffers h)).

(** *** Sequences of configuration calls *)

Inductive Config :=
| SetUrl (url : string)
| SetTimeoutMs (ms : Z)
| SetFollowRedirects (yes : bool)
| SetUserAgent (ua : string)
| AddHeader (hd : string)
| SetBody (body : string) (content_type : string).

Definition apply_config (h : HttpRequest) (c : Config) : HttpRequest :=
  match c with
  | SetUrl url => set_url url h
  | SetTimeoutMs ms => set_timeout_ms ms h
  | SetFollowRedirects yes => set_follow_redirects yes h
  | SetUserAgent ua => set_user_agent ua h
  | AddHeader hd => add_header hd h
  | SetBody b ct => set_body b ct h
  end.

(** A chain [h.c1(...).c2(...)...]. *)
Definition configure (cs : list Config) (h : HttpRequest) : HttpRequest :=
  fold_left apply_config cs h.

(** ** What a caller expects of a chain: the values written, in call order *)

Definition urls_written (cs : list Config) : list string :=
  flat_map (fun c => match c with SetUrl u => [u] | _ => [] end) cs.

Definition timeouts_written (cs : list Config) : list Z :=
  flat_map (fun c => match c with SetTimeoutMs ms => [ms] | _ => [] end) cs.

Definition user_agents_written (cs : list Config) : list string :=
  flat_map (fun c => match c with SetUserAgent ua => [ua] | _ => [] end) cs.

Definition bodies_written (cs : list Config) : list string :=
  flat_map (fun c => match c with SetBody b _ => [b] | _ => [] end) cs.

Definition content_type_line (content_type : string) : string :=
  "Content-Type: " ++ c_str content_type.

Definition header_lines_written (cs : list Config) : list string :=
  flat_map (fun c =>
              match c with
              | AddHeader hd => [c_str hd]
              | SetBody _ ct =>
                  if empty ct then [] else [content_type_line ct]
              | _ => []
              end) cs.

(** ** What one exchange delivers *)

Fixpoint received_body (ds : list Delivery) : string :=
  match ds with
  | [] => EmptyString
  | BodyChunk data :: r => data ++ received_body r
  | HeaderLine _ :: r => received_body r
  end.

Fixpoint received_headers (ds : list Delivery) : list string :=
  match ds with
  | [] => []
  | BodyChunk _ :: r => received_headers r
  | HeaderLine data :: r => data :: received_headers r
  end.

(** The diagnostic of a failed exchange: the text the engine left in the
    error buffer (cut to the buffer), or the generic text for the code when
    it left none. *)
Definition diagnostic (lib : Engine) (o : Outcome) : string :=
  match errtext o with
  | Some m =>
      let t := substring 0 (CURL_ERROR_SIZE - 1) (c_str m) in
      if empty t then curl_easy_strerror lib (rc o) else t
  | None => curl_easy_strerror lib (rc o)
  end.

Definition exchange_result (lib : Engine) (o : Outcome) : result HttpResponse :=
  if (rc o =? CURLE_OK)%Z
  then Returned (mkHttpResponse (response_code o)
                   (received_body (deliveries o))
                   (received_headers (deliveries o)))
  else Thrown (runtime_error ("curl_easy_perform: " ++ diagnostic lib o)).

(** ** The state every constructed object is in *)

Definition wired (h : HttpRequest) : Prop :=
  opt_writefunction (easy_ h) = Some write_body_cb /\
  opt_writedata (easy_ h) = Some (this h) /\
  opt_headerfunction (easy_ h) = Some write_header_cb /\
  opt_headerdata (easy_ h) = Some (this h) /\
  opt_errorbuffer (easy_ h) = true /\
  String.length (errbuf_storage_ h) = CURL_ERROR_SIZE.

(** The caller-facing configuration held by the handle, with the wiring the
    constructor installs: every option except the ones a verb writes. *)
Definition same_configuration (e1 e2 : CURL) : Prop :=
  opt_url e1 = opt_url e2 /\
  opt_timeout_ms e1 = opt_timeout_ms e2 /\
  opt_followlocation e1 = opt_followlocation e2 /\
  opt_useragent e1 = opt_useragent e2 /\
  opt_errorbuffer e1 = opt_errorbuffer e2 /\
  opt_writefunction e1 = opt_writefunction e2 /\
  opt_writedata e1 = opt_writedata e2 /\
  opt_headerfunction e1 = opt_headerfunction e2 /\
  opt_headerdata e1 = opt_headerdata e2.

(** ** Two engines and two objects to run the definitions on *)

Definition CURLE_COULDNT_CONNECT : CURLcode := 7%Z.

Definition strerror_table (c : CURLcode) : string :=
  if (c =? CURLE_OK)%Z then "No error" else "Could not connect to server".

(** A server that answers every request with 200 and a two-byte body. *)
Definition lib_up : Engine :=
  mkEngine
    (fun _ => mkOutcome CURLE_OK [HeaderLine "HTTP/1.1 200 OK"; BodyChunk "ok"]
                None 200)
    strerror_table.

(** An unreachable server; the engine leaves a detailed diagnostic. *)
Definition lib_down : Engine :=
  mkEngine
    (fun _ => mkOutcome CURLE_COULDNT_CONNECT []
                (Some "Failed to connect to example.test port 80") 0)
    strerror_table.

(** An unreachable server, and an engine that stores no diagnostic. *)
Definition lib_mute : Engine :=
  mkEngine (fun _ => mkOutcome CURLE_COULDNT_CONNECT [] None 0) strerror_table.

Definition fresh : HttpRequest := construct 1%N easy_defaults.

(** [fresh.set_url(...).set_body("x")] *)
Definition with_x : HttpRequest :=
  set_body "x" EmptyString (set_url "http://example.test/post" fresh).

(** ** Statements shared by the claims *)

(** A custom method word installed by verb [v] is still in force when a
    later [get()] runs. *)
Definition custom_method_survives_get (v : Verb) (word : string) : Prop :=
  forall (lib1 lib2 : Engine) (cs : list Config) (h : HttpRequest),
    let h1 := configure cs (fst (invoke v lib1 h)) in
    opt_customrequest (easy_ h1) = Some word /\
    easy_ (select GET (reset_buffers h1)) = set_method HTTPREQ_GET (easy_ h1) /\
    opt_customrequest (outgoing GET h1) = Some word /\
    request_method (outgoing GET h1) = word /\
    opt_customrequest (easy_ (fst (get lib2 h1))) = Some word.

(** The result [res] of a verb call is the one [perform] derives from
    running the engine on the handle [e]: it throws when the engine reports
    failure there, and returns the engine's response code otherwise. *)
Definition answers (lib : Engine) (e : CURL) (res : result HttpResponse)
  : Prop :=
  let o := curl_easy_perform lib e in
  match res with
  | Thrown (runtime_error w) =>
      rc o <> CURLE_OK /\ exists d, w = "curl_easy_perform: " ++ d
  | Returned r => rc o = CURLE_OK /\ status r = response_code o
  end.

(** Calling a setter twice is calling it once with the second value. *)
Definition twice_is_once : Prop :=
  (forall u1 u2 h, set_url u2 (set_url u1 h) = set_url u2 h) /\
  (forall t1 t2 h, set_timeout_ms t2 (set_timeout_ms t1 h)
                   = set_timeout_ms t2 h) /\
  (forall a1 a2 h, set_user_agent a2 (set_user_agent a1 h)
                   = set_user_agent a2 h) /\
  (forall b1 b2 ct h, set_body b2 ct (set_body b1 EmptyString h)
                      = set_body b2 ct h) /\
  (forall b1 ct1 b2 ct2 h,
      set_body b2 ct2 (set_body b1 ct1 h)
      = set_body b2 ct2
          (with_headers
             (headers_ h ++ (if empty ct1 then [] else [content_type_line ct1]))
             h)).

(** ** Arbitrary use of one object *)

(** What a caller can do with a constructed object: a configuration call,
    or a verb call against whatever the network answers that time. *)
Inductive Op :=
| Configure (c : Config)
| Invoke (v : Verb) (lib : Engine).

Definition step (h : HttpRequest) (o : Op) : HttpRequest :=
  match o with
  | Configure c => apply_config h c
  | Invoke v lib => fst (invoke v lib h)
  end.

Definition run (ops : list Op) (h : HttpRequest) : HttpRequest :=
  fold_left step ops h.

(** The configuration calls of a history, in call order. *)
Definition configs_of (ops : list Op) : list Config :=
  flat_map (fun o => match o with Configure c => [c] | Invoke _ _ => [] end)
    ops.




(** Two objects that agree on everything the configuration calls write. *)
Definition same_surface (h h' : HttpRequest) : Prop :=
  url_ h = url_ h' /\ user_agent_ h = user_agent_ h' /\
  body_ h = body_ h' /\ headers_ h = headers_ h' /\
  opt_url (easy_ h) = opt_url (easy_ h') /\
  opt_timeout_ms (easy_ h) = opt_timeout_ms (easy_ h') /\
  opt_followlocation (easy_ h) = opt_followlocation (easy_ h') /\
  opt_useragent (easy_ h) = opt_useragent (easy_ h').

(** Which member or option a configuration call assigns, and whether it
    appends to the header list. *)
Definition slot (c : Config) : nat :=
  match c with
  | SetUrl _ => 0
  | SetTimeoutMs _ => 1
  | SetFollowRedirects _ => 2
  | SetUserAgent _ => 3
  | AddHeader _ => 4
  | SetBody _ _ => 5
  end.

Definition appends_header (c : Config) : bool :=
  match c with
  | AddHeader _ => true
  | SetBody _ ct => negb (empty ct)
  | _ => false
  end.

Definition independent (c1 c2 : Config) : bool :=
  negb (Nat.eqb (slot c1) (slot c2)) &&
  negb (appends_header c1 && appends_header c2).

(** A string of [n] copies of one character. *)
Fixpoint replicate (n : nat) (c : ascii) : string :=
  match n with
  | O => EmptyString
  | S k => String c (replicate k c)
  end.

(** An engine whose diagnostic is longer than the error buffer. *)
Definition lib_verbose : Engine :=
  mkEngine
    (fun _ => mkOutcome CURLE_COULDNT_CONNECT [BodyChunk "par"]
                (Some (replicate 300 "e")) 0)
    strerror_table.

(** ** class CurlGlobal *)

(** The constructor, given what [curl_global_init(flags)] returned. *)
Definition CurlGlobal_new (init_rc : Z) : result unit :=
  if negb (init_rc =? 0)%Z
  then Thrown (runtime_error "curl_global_init failed")
  else Returned tt.

(** ** main_http.hpp *)

Module Demo.

(** One insertion into [std::cout]. *)
Inductive cout_item :=
| put_str (s : string)
| put_long (n : Z)
| put_size (n : nat).

Definition dquote : ascii := Ascii.ascii_of_nat 34.

(** The raw literal of the POST body: an opening brace, the quoted key x, a
    colon, the digit 1 and a closing brace. *)
Definition json_x1 : string :=
  String "{" (String dquote (String "x" (String dquote
    (String ":" (String "1" (String "}" EmptyString)))))).

Definition endl : string := String (Ascii.ascii_of_nat 10) EmptyString.

(** What [main] meets: the result of the global initialisation and, for
    each of its two request objects, the address it lives at, whether
    [curl_easy_init] yields a handle, and the library during its transfer. *)
Record World := mkWorld {
  global_init_rc : Z;
  req_addr : object_id;
  req_handle : bool;
  get_lib : Engine;
  post_addr : object_id;
  post_handle : bool;
  post_lib : Engine
}.

(** The chains of [main], on a constructed object. *)
Definition configure_get (req : HttpRequest) : HttpRequest :=
  set_timeout_ms 5000 (set_url "https://httpbin.org/get" req).

Definition configure_post (postReq : HttpRequest) : HttpRequest :=
  set_body json_x1 "application/json"
    (set_timeout_ms 5000 (set_url "https://httpbin.org/post" postReq)).

(** [main]: the items inserted into [std::cout], and the exception that
    leaves [main], if any. *)
Definition main (w : World) : list cout_item * option exception :=
  match CurlGlobal_new (global_init_rc w) with
  | Thrown e => ([], Some e)
  | Returned _ =>
      match HttpRequest_new (req_addr w) (curl_easy_init (req_handle w)) with
      | Thrown e => ([], Some e)
      | Returned req =>
          match snd (get (get_lib w) (configure_get req)) with
          | Thrown e => ([], Some e)
          | Returned res =>
              let out1 :=
                [put_str "GET status: "; put_long (status res); put_str endl;
                 put_str "Body size: "; put_size (String.length (body res));
                 put_str (" bytes" ++ endl)] in
              match HttpRequest_new (post_addr w)
                      (curl_easy_init (post_handle w)) with
              | Thrown e => (out1, Some e)
              | Returned postReq =>
                  match snd (post (post_lib w) (configure_post postReq)) with
                  | Thrown e => (out1, Some e)
                  | Returned p =>
                      ((out1 ++
                        [put_str "POST status: "; put_long (status p);
                         put_str endl; put_str (body p); put_str endl])%list,
                       None)
                  end
              end
          end
      end
  end.

(** The handles the engine is run on by the two calls of [main]. *)
Definition get_request (addr : object_id) : CURL :=
  outgoing GET (configure_get (construct addr easy_defaults)).

Definition post_request (addr : object_id) : CURL :=
  outgoing POST (configure_post (construct addr easy_defaults)).

(** A world in which everything works, and one whose first transfer fails. *)
Definition world_up : World := mkWorld 0 1%N true lib_up 2%N true lib_up.

Definition world_get_down : World :=
  mkWorld 0 1%N true lib_down 2%N true lib_up.

End Demo.

(** * Properties *)

(** ** C strings *)

Lemma c_str_idem (s : string) : c_str (c_str s) = c_str s.
Proof.
  induction s as [|c r IH]; simpl; [reflexivity|].
  destruct (is_nul c) eqn:E; simpl; [reflexivity|].
  now rewrite E, IH.
Qed.

Lemma c_str_app (a b : string) :
  nul_free a -> c_str (a ++ b) = a ++ c_str b.
Proof.
  unfold nul_free. induction a as [|c r IH]; simpl; intros H; [reflexivity|].
  destruct (is_nul c) eqn:E; [discriminate|].
  injection H as H. now rewrite IH.
Qed.

Lemma c_str_terminated (m rest : string) :
  nul_free m -> c_str (m ++ String NUL rest) = m.
Proof.
  intros H. rewrite (c_str_app _ _ H). clear H. simpl.
  induction m as [|c r IH]; simpl; [reflexivity|now rewrite IH].
Qed.

Lemma nul_free_c_str (s : string) : nul_free (c_str s).
Proof. apply c_str_idem. Qed.

Lemma nul_free_prefix (n : nat) (s : string) :
  nul_free s -> nul_free (substring 0 n s).
Proof.
  unfold nul_free. revert s.
  induction n as [|n IH]; intros [|c r] H; simpl in *; try reflexivity.
  destruct (is_nul c) eqn:E; [discriminate|].
  injection H as H. now rewrite IH.
Qed.

Lemma length_prefix (n : nat) (s : string) :
  String.length (substring 0 n s) <= n.
Proof.
  revert s. induction n as [|n IH]; intros [|c r]; simpl; try lia.
  specialize (IH r). lia.
Qed.

Lemma substring_all (s : string) : substring 0 (String.length s) s = s.
Proof. induction s as [|c r IH]; simpl; [reflexivity|now rewrite IH]. Qed.

Lemma c_str_overwrite (m buf : string) :
  nul_free m -> String.length m < String.length buf ->
  c_str (overwrite (m ++ String NUL EmptyString) buf) = m.
Proof.
  unfold nul_free. revert buf.
  induction m as [|c r IH]; intros [|b buf] H L; simpl in *; try lia.
  - reflexivity.
  - destruct (is_nul c) eqn:E; [discriminate|].
    injection H as H. rewrite IH; [reflexivity|assumption|lia].
Qed.

Lemma length_overwrite (src dst : string) :
  String.length (overwrite src dst) = String.length dst.
Proof.
  revert dst. induction src as [|c r IH]; intros [|d dst]; simpl; auto.
Qed.

Lemma c_str_store_cstr (msg buf : string) :
  String.length buf = CURL_ERROR_SIZE ->
  c_str (store_cstr CURL_ERROR_SIZE msg buf)
  = substring 0 (CURL_ERROR_SIZE - 1) (c_str msg).
Proof.
  intros L. unfold store_cstr. apply c_str_overwrite.
  - apply nul_free_prefix, nul_free_c_str.
  - pose proof (length_prefix (CURL_ERROR_SIZE - 1) (c_str msg)) as P.
    rewrite L. apply Nat.le_lt_trans with (1 := P).
    unfold CURL_ERROR_SIZE. lia.
Qed.

Lemma c_str_poke0 (buf : string) : c_str (poke0 buf) = EmptyString.
Proof. destruct buf; reflexivity. Qed.

Lemma length_poke0 (buf : string) :
  String.length (poke0 buf) = String.length buf.
Proof. destruct buf; reflexivity. Qed.

Lemma peek0_c_str (buf : string) : is_nul (peek0 buf) = empty (c_str buf).
Proof.
  destruct buf as [|c r]; simpl; [reflexivity|].
  destruct (is_nul c); reflexivity.
Qed.

Lemma empty_spec (s : string) : empty s = true <-> s = EmptyString.
Proof. destruct s; simpl; split; congruence. Qed.

(** ** What the engine can and cannot touch *)

(** Both sinks report every byte they were given as consumed. *)
Lemma sinks_consume_all (data : string) (r : HttpResponse) :
  snd (write_body_cb data r) = String.length data /\
  snd (write_header_cb data r) = String.length data.
Proof. split; reflexivity. Qed.

Lemma deliver_frame (h : HttpRequest) (d : Delivery) :
  deliver h d = with_response (response_ (deliver h d)) h.
Proof.
  destruct h as [t e hs u ua b r eb]. unfold deliver.
  destruct d; simpl;
    repeat match goal with
           | |- context [match ?x with _ => _ end] => destruct x
           end; reflexivity.
Qed.

Lemma deliveries_frame (ds : list Delivery) (h : HttpRequest) :
  fold_left deliver ds h
  = with_response (response_ (fold_left deliver ds h)) h.
Proof.
  revert h. induction ds as [|d ds IH]; intros h; simpl.
  - destruct h; reflexivity.
  - rewrite IH. rewrite (deliver_frame h d) at 2. reflexivity.
Qed.

Lemma deliver_wired (h : HttpRequest) (d : Delivery) :
  wired h ->
  response_ (deliver h d)
  = match d with
    | BodyChunk data =>
        mkHttpResponse (status (response_ h)) (body (response_ h) ++ data)
          (headers (response_ h))
    | HeaderLine data =>
        mkHttpResponse (status (response_ h)) (body (response_ h))
          (headers (response_ h) ++ [data])
    end.
Proof.
  intros (Hw & Hwd & Hh & Hhd & _ & _). unfold deliver.
  destruct d; [rewrite Hw, Hwd | rewrite Hh, Hhd];
    rewrite N.eqb_refl; reflexivity.
Qed.

Lemma wired_with_response (r : HttpResponse) (h : HttpRequest) :
  wired h -> wired (with_response r h).
Proof. intros H; exact H. Qed.

Lemma string_app_assoc (a b c : string) : (a ++ b) ++ c = a ++ (b ++ c).
Proof. induction a as [|x a IH]; simpl; [reflexivity|now rewrite IH]. Qed.

Lemma string_app_empty (a : string) : a ++ EmptyString = a.
Proof. induction a as [|x a IH]; simpl; [reflexivity|now rewrite IH]. Qed.

Lemma deliveries_wired (ds : list Delivery) (h : HttpRequest) :
  wired h ->
  response_ (fold_left deliver ds h)
  = mkHttpResponse (status (response_ h))
      (body (response_ h) ++ received_body ds)
      (headers (response_ h) ++ received_headers ds).
Proof.
  revert h. induction ds as [|d ds IH]; intros h W; simpl.
  - rewrite string_app_empty, app_nil_r. destruct (response_ h); reflexivity.
  - rewrite IH.
    + rewrite (deliver_wired h d W).
      destruct d; simpl; [now rewrite string_app_assoc|].
      now rewrite <- app_assoc.
    + rewrite deliver_frame. apply wired_with_response, W.
Qed.

(** The engine runs on [transfer_handle h], changes no option and no
    configuration member. *)
Lemma engine_effect_frame (o : Outcome) (h : HttpRequest) :
  engine_effect o h
  = with_errbuf (errbuf_storage_ (engine_effect o h))
      (with_response (response_ (engine_effect o h)) h).
Proof.
  unfold engine_effect. rewrite (deliveries_frame (deliveries o) h).
  set (r := response_ (fold_left deliver (deliveries o) h)).
  destruct h as [t e hs u ua b r0 eb]. simpl.
  destruct (errtext o); [destruct (opt_errorbuffer e)|]; reflexivity.
Qed.

Lemma perform_frame (lib : Engine) (h : HttpRequest) :
  let h' := fst (perform lib h) in
  this h' = this h /\ easy_ h' = transfer_handle h /\
  headers_ h' = headers_ h /\ url_ h' = url_ h /\
  user_agent_ h' = user_agent_ h /\ body_ h' = body_ h.
Proof.
  unfold perform, transfer_handle.
  set (h1 := match headers_ h with [] => h | _ :: _ => _ end).
  assert (E : this h1 = this h /\
              easy_ h1 = match headers_ h with
                         | [] => easy_ h
                         | _ :: _ =>
                             curl_easy_setopt (easy_ h)
                               (CURLOPT_HTTPHEADER (headers_ h))
                         end /\
              headers_ h1 = headers_ h /\ url_ h1 = url_ h /\
              user_agent_ h1 = user_agent_ h /\ body_ h1 = body_ h).
  { subst h1. destruct (headers_ h) eqn:Hh; simpl; rewrite ?Hh; auto 10. }
  destruct E as (E0 & E1 & E2 & E3 & E4 & E5).
  rewrite <- E0, <- E1, <- E2, <- E3, <- E4, <- E5.
  generalize (curl_easy_perform lib (easy_ h1)). intros o.
  rewrite (engine_effect_frame o h1).
  destruct (negb (rc o =? CURLE_OK)%Z); simpl; auto 10.
Qed.

Lemma invoke_unfold (v : Verb) (lib : Engine) (h : HttpRequest) :
  invoke v lib h = perform lib (select v (reset_buffers h)).
Proof. destruct v; reflexivity. Qed.

Lemma select_frame (v : Verb) (h : HttpRequest) :
  select v h = with_easy (easy_ (select v h)) h.
Proof. destruct v, h; reflexivity. Qed.

Lemma invoke_frame (v : Verb) (lib : Engine) (h : HttpRequest) :
  let h' := fst (invoke v lib h) in
  this h' = this h /\ easy_ h' = outgoing v h /\
  headers_ h' = headers_ h /\ url_ h' = url_ h /\
  user_agent_ h' = user_agent_ h /\ body_ h' = body_ h.
Proof.
  rewrite invoke_unfold.
  destruct (perform_frame lib (select v (reset_buffers h)))
    as (E0 & E1 & E2 & E3 & E4 & E5).
  cbv zeta. rewrite E0, E1, E2, E3, E4, E5.
  clear E0 E1 E2 E3 E4 E5. unfold outgoing.
  destruct v, h; simpl; auto 10.
Qed.

(** ** The wiring is an invariant *)

Lemma same_configuration_refl (e : CURL) : same_configuration e e.
Proof. unfold same_configuration; auto 10. Qed.

Lemma same_configuration_trans (e1 e2 e3 : CURL) :
  same_configuration e1 e2 -> same_configuration e2 e3 ->
  same_configuration e1 e3.
Proof.
  unfold same_configuration.
  intros (A1 & A2 & A3 & A4 & A5 & A6 & A7 & A8 & A9)
         (B1 & B2 & B3 & B4 & B5 & B6 & B7 & B8 & B9).
  repeat split; congruence.
Qed.

Lemma wired_transport (h h' : HttpRequest) :
  this h' = this h ->
  same_configuration (easy_ h') (easy_ h) ->
  String.length (errbuf_storage_ h') = String.length (errbuf_storage_ h) ->
  wired h -> wired h'.
Proof.
  unfold wired, same_configuration.
  intros T (_ & _ & _ & _ & C5 & C6 & C7 & C8 & C9) L
         (W1 & W2 & W3 & W4 & W5 & W6).
  rewrite T, C5, C6, C7, C8, C9, L. auto 10.
Qed.

Lemma select_configuration (v : Verb) (h : HttpRequest) :
  same_configuration (easy_ (select v h)) (easy_ h).
Proof. destruct v; unfold same_configuration; simpl; auto 10. Qed.

Lemma transfer_handle_configuration (h : HttpRequest) :
  same_configuration (transfer_handle h) (easy_ h).
Proof.
  unfold transfer_handle, same_configuration.
  destruct (headers_ h); simpl; auto 10.
Qed.

Lemma outgoing_configuration (v : Verb) (h : HttpRequest) :
  same_configuration (outgoing v h) (easy_ h).
Proof.
  unfold outgoing.
  eapply same_configuration_trans; [apply transfer_handle_configuration|].
  eapply same_configuration_trans; [apply select_configuration|].
  destruct h; apply same_configuration_refl.
Qed.

Lemma wired_reset_buffers (h : HttpRequest) :
  wired h -> wired (reset_buffers h).
Proof.
  apply wired_transport; [reflexivity|apply same_configuration_refl|].
  simpl. apply length_poke0.
Qed.

Lemma wired_select (v : Verb) (h : HttpRequest) :
  wired h -> wired (select v h).
Proof.
  apply wired_transport; [|apply select_configuration|];
    destruct v; reflexivity.
Qed.

Lemma apply_config_configuration_wiring (c : Config) (h : HttpRequest) :
  this (apply_config h c) = this h /\
  errbuf_storage_ (apply_config h c) = errbuf_storage_ h /\
  response_ (apply_config h c) = response_ h /\
  opt_errorbuffer (easy_ (apply_config h c)) = opt_errorbuffer (easy_ h) /\
  opt_writefunction (easy_ (apply_config h c)) = opt_writefunction (easy_ h) /\
  opt_writedata (easy_ (apply_config h c)) = opt_writedata (easy_ h) /\
  opt_headerfunction (easy_ (apply_config h c))
  = opt_headerfunction (easy_ h) /\
  opt_headerdata (easy_ (apply_config h c)) = opt_headerdata (easy_ h).
Proof.
  destruct c; simpl; auto 10.
  unfold set_body. destruct (negb (empty content_type)); simpl; auto 10.
Qed.

Lemma wired_apply_config (c : Config) (h : HttpRequest) :
  wired h -> wired (apply_config h c).
Proof.
  destruct (apply_config_configuration_wiring c h)
    as (T & B & _ & C5 & C6 & C7 & C8 & C9).
  unfold wired. rewrite T, B, C5, C6, C7, C8, C9. auto.
Qed.

Lemma wired_configure (cs : list Config) (h : HttpRequest) :
  wired h -> wired (configure cs h).
Proof.
  unfold configure. revert h.
  induction cs as [|c cs IH]; intros h W; simpl; [exact W|].
  apply IH, wired_apply_config, W.
Qed.

Lemma wired_new (self : object_id) (e : CURL) (h : HttpRequest) :
  HttpRequest_new self (Some e) = Returned h -> wired h.
Proof.
  unfold HttpRequest_new. intros H. injection H as <-.
  unfold wired. simpl. auto 10.
Qed.

(** ** The result of one exchange *)

Lemma perform_result (lib : Engine) (h : HttpRequest) :
  wired h ->
  response_ h = HttpResponse_default ->
  c_str (errbuf_storage_ h) = EmptyString ->
  snd (perform lib h)
  = exchange_result lib (curl_easy_perform lib (transfer_handle h)).
Proof.
  intros W R B. unfold perform.
  set (h1 := match headers_ h with [] => h | _ :: _ => _ end).
  assert (E1 : easy_ h1 = transfer_handle h).
  { subst h1. unfold transfer_handle. destruct (headers_ h); reflexivity. }
  assert (R1 : response_ h1 = HttpResponse_default).
  { subst h1. destruct (headers_ h); exact R. }
  assert (B1 : errbuf_storage_ h1 = errbuf_storage_ h).
  { subst h1. destruct (headers_ h); reflexivity. }
  assert (W1 : wired h1).
  { revert W. apply wired_transport.
    - subst h1. destruct (headers_ h); reflexivity.
    - rewrite E1. apply transfer_handle_configuration.
    - now rewrite B1. }
  rewrite E1. generalize (curl_easy_perform lib (transfer_handle h)).
  intros o. unfold exchange_result.
  assert (R2 : response_ (engine_effect o h1)
               = mkHttpResponse 0 (received_body (deliveries o))
                   (received_headers (deliveries o))).
  { unfold engine_effect.
    assert (Rf := deliveries_wired (deliveries o) h1 W1).
    rewrite R1 in Rf. simpl in Rf.
    destruct (errtext o); [destruct (opt_errorbuffer _)|]; exact Rf. }
  destruct (rc o =? CURLE_OK)%Z; simpl.
  - now rewrite R2.
  - do 2 f_equal. rewrite peek0_c_str. unfold diagnostic, engine_effect.
    rewrite (deliveries_frame (deliveries o) h1). simpl.
    destruct W1 as (_ & _ & _ & _ & We & Wl).
    destruct (errtext o) as [m|]; simpl.
    + rewrite We. simpl. rewrite c_str_store_cstr by exact Wl.
      destruct (empty _); reflexivity.
    + rewrite B1, B. reflexivity.
Qed.

Lemma invoke_result (v : Verb) (lib : Engine) (h : HttpRequest) :
  wired h ->
  snd (invoke v lib h)
  = exchange_result lib (curl_easy_perform lib (outgoing v h)).
Proof.
  intros W. rewrite invoke_unfold. unfold outgoing.
  apply perform_result.
  - apply wired_select, wired_reset_buffers, W.
  - destruct v; reflexivity.
  - rewrite (select_frame v (reset_buffers h)). simpl. apply c_str_poke0.
Qed.

Lemma wired_invoke (v : Verb) (lib : Engine) (h : HttpRequest) :
  wired h -> wired (fst (invoke v lib h)).
Proof.
  intros W. destruct (invoke_frame v lib h) as (T & E & _).
  revert W. apply wired_transport.
  - exact T.
  - rewrite E. apply outgoing_configuration.
  - rewrite invoke_unfold. unfold perform.
    set (h1 := match headers_ _ with [] => _ | _ :: _ => _ end).
    assert (L1 : String.length (errbuf_storage_ h1)
                 = String.length (errbuf_storage_ h)).
    { subst h1. rewrite (select_frame v (reset_buffers h)).
      destruct (headers_ _); simpl; apply length_poke0. }
    generalize (curl_easy_perform lib (easy_ h1)). intros o.
    assert (L2 : String.length (errbuf_storage_ (engine_effect o h1))
                 = String.length (errbuf_storage_ h)).
    { unfold engine_effect. rewrite (deliveries_frame (deliveries o) h1).
      destruct (errtext o); simpl; [|exact L1].
      destruct (opt_errorbuffer _); simpl; [|exact L1].
      unfold store_cstr. rewrite length_overwrite. exact L1. }
    destruct (negb (rc o =? CURLE_OK)%Z); simpl; exact L2.
Qed.

Lemma wired_construct (self : object_id) (e : CURL) :
  wired (construct self e).
Proof. apply (wired_new self e). reflexivity. Qed.

(** ** What the outgoing request depends on *)

Lemma outgoing_ext (v : Verb) (h h' : HttpRequest) :
  easy_ h = easy_ h' -> headers_ h = headers_ h' -> body_ h = body_ h' ->
  outgoing v h = outgoing v h'.
Proof.
  destruct h, h'. simpl. intros -> -> ->.
  unfold outgoing, transfer_handle. destruct v; reflexivity.
Qed.

Lemma outgoing_httpheader (v : Verb) (h : HttpRequest) :
  opt_httpheader (outgoing v h)
  = match headers_ h with
    | [] => opt_httpheader (easy_ h)
    | _ :: _ => Some (headers_ h)
    end.
Proof.
  unfold outgoing, transfer_handle.
  rewrite (select_frame v (reset_buffers h)). simpl.
  destruct (headers_ h); destruct v; reflexivity.
Qed.

Lemma outgoing_customrequest_GET (h : HttpRequest) :
  opt_customrequest (outgoing GET h) = opt_customrequest (easy_ h).
Proof.
  unfold outgoing, transfer_handle. simpl. destruct (headers_ h); reflexivity.
Qed.

Lemma payload_GET (h : HttpRequest) :
  request_payload (outgoing GET h) = no_body.
Proof.
  unfold outgoing, transfer_handle. simpl. destruct (headers_ h); reflexivity.
Qed.

Lemma payload_DELETE (h : HttpRequest) :
  request_payload (outgoing DELETE h) = request_payload (easy_ h).
Proof.
  unfold outgoing, transfer_handle. simpl. destruct (headers_ h); reflexivity.
Qed.

Lemma postfields_whole_body (b : string) :
  postfields_bytes b (Z.of_nat (String.length b)) = b.
Proof.
  unfold postfields_bytes.
  destruct (Z.ltb_spec (Z.of_nat (String.length b)) 0) as [L|_]; [lia|].
  rewrite Nat2Z.id. apply substring_all.
Qed.

Lemma payload_POST (h : HttpRequest) :
  request_payload (outgoing POST h)
  = post_data (body_ h) (Z.of_nat (String.length (body_ h))).
Proof.
  unfold outgoing, transfer_handle, request_payload.
  simpl. destruct (headers_ h); simpl; unfold body_size; simpl;
    now rewrite postfields_whole_body.
Qed.

Lemma payload_PUT (h : HttpRequest) :
  request_payload (outgoing PUT h)
  = post_data (body_ h) (Z.of_nat (String.length (body_ h))).
Proof.
  unfold outgoing, transfer_handle, request_payload.
  simpl. destruct (headers_ h); simpl; unfold body_size; simpl;
    now rewrite postfields_whole_body.
Qed.

(** Configuration calls never touch the request kind or the payload
    options. *)
Lemma apply_config_selection (c : Config) (h : HttpRequest) :
  method (easy_ (apply_config h c)) = method (easy_ h) /\
  opt_postfieldsize (easy_ (apply_config h c)) = opt_postfieldsize (easy_ h) /\
  opt_customrequest (easy_ (apply_config h c)) = opt_customrequest (easy_ h) /\
  opt_httpheader (easy_ (apply_config h c)) = opt_httpheader (easy_ h).
Proof.
  destruct c; simpl; auto.
  unfold set_body. destruct (negb (empty content_type)); simpl; auto.
Qed.

Lemma configure_selection (cs : list Config) (h : HttpRequest) :
  method (easy_ (configure cs h)) = method (easy_ h) /\
  opt_postfieldsize (easy_ (configure cs h)) = opt_postfieldsize (easy_ h) /\
  opt_customrequest (easy_ (configure cs h)) = opt_customrequest (easy_ h) /\
  opt_httpheader (easy_ (configure cs h)) = opt_httpheader (easy_ h).
Proof.
  unfold configure. revert h.
  induction cs as [|c cs IH]; intros h; simpl; [auto|].
  destruct (IH (apply_config h c)) as (A1 & A3 & A4 & A5).
  destruct (apply_config_selection c h) as (B1 & B3 & B4 & B5).
  rewrite A1, A3, A4, A5. auto.
Qed.

Lemma configure_payload (cs : list Config) (h : HttpRequest) :
  method (easy_ h) = HTTPREQ_GET ->
  request_payload (easy_ (configure cs h)) = no_body.
Proof.
  intros M. destruct (configure_selection cs h) as (A1 & _).
  unfold request_payload. now rewrite A1, M.
Qed.

Lemma perform_outcome (lib : Engine) (h : HttpRequest) :
  let o := curl_easy_perform lib (transfer_handle h) in
  match snd (perform lib h) with
  | Thrown (runtime_error w) =>
      rc o <> CURLE_OK /\ exists d, w = "curl_easy_perform: " ++ d
  | Returned r => rc o = CURLE_OK /\ status r = response_code o
  end.
Proof.
  unfold perform.
  set (h1 := match headers_ h with [] => h | _ :: _ => _ end).
  assert (E1 : easy_ h1 = transfer_handle h).
  { subst h1. unfold transfer_handle. destruct (headers_ h); reflexivity. }
  rewrite E1. cbv zeta.
  generalize (curl_easy_perform lib (transfer_handle h)). intros o.
  destruct (Z.eqb_spec (rc o) CURLE_OK) as [Hok|Hko]; simpl.
  - split; [exact Hok|reflexivity].
  - split; [exact Hko|]. eexists. reflexivity.
Qed.

Lemma invoke_answers (v : Verb) (lib : Engine) (h : HttpRequest) :
  answers lib (easy_ (fst (invoke v lib h))) (snd (invoke v lib h)).
Proof.
  destruct (invoke_frame v lib h) as (_ & E & _). rewrite E.
  rewrite invoke_unfold. unfold outgoing, answers.
  apply (perform_outcome lib (select v (reset_buffers h))).
Qed.

Lemma invoke_httpheader (v : Verb) (lib : Engine) (h : HttpRequest)
  (l : list string) :
  headers_ h = l -> l <> [] ->
  opt_httpheader (easy_ (fst (invoke v lib h))) = Some l.
Proof.
  intros E N. destruct (invoke_frame v lib h) as (_ & -> & _).
  rewrite outgoing_httpheader, E. destruct l; [contradiction|reflexivity].
Qed.

Lemma outgoing_selection (v : Verb) (h : HttpRequest) :
  opt_customrequest (outgoing v h)
  = match v with
    | DELETE => Some "DELETE"
    | PUT => Some "PUT"
    | _ => opt_customrequest (easy_ h)
    end /\
  method (outgoing v h)
  = match v with
    | GET => HTTPREQ_GET
    | DELETE => method (easy_ h)
    | _ => HTTPREQ_POST
    end.
Proof.
  unfold outgoing, transfer_handle.
  destruct v; simpl; destruct (headers_ h); split; reflexivity.
Qed.

(** * The properties of the specification *)

(** ** Method selection and payload *)

(** What the verbs guarantee of the payload on every handle, whatever ran
    on it before: [get()] runs the engine on a handle that sends no request
    body; [post()] and [put()] run it on a handle whose payload is the
    currently configured body with its byte length (the empty body included,
    length 0).  [del()] writes the method word only and leaves the payload
    selection as it finds it: no body is sent where none was selected, as on
    a constructed handle after any chain of configuration calls, and after a
    [get()]. *)
Theorem verb_payload (h : HttpRequest) :
  (forall v lib, easy_ (fst (invoke v lib h)) = outgoing v h) /\
  request_payload (outgoing GET h) = no_body /\
  request_payload (outgoing POST h)
  = post_data (body_ h) (Z.of_nat (String.length (body_ h))) /\
  request_payload (outgoing PUT h)
  = post_data (body_ h) (Z.of_nat (String.length (body_ h))) /\
  request_payload (outgoing POST (with_body EmptyString h))
  = post_data EmptyString 0 /\
  request_payload (outgoing PUT (with_body EmptyString h))
  = post_data EmptyString 0 /\
  (forall v0 lib0,
      let h0 := fst (invoke v0 lib0 h) in
      request_payload (outgoing GET h0) = no_body /\
      request_payload (outgoing POST h0)
      = post_data (body_ h) (Z.of_nat (String.length (body_ h))) /\
      request_payload (outgoing PUT h0)
      = post_data (body_ h) (Z.of_nat (String.length (body_ h)))) /\
  request_payload (outgoing DELETE h) = request_payload (easy_ h) /\
  (forall self cs,
      request_payload
        (outgoing DELETE (configure cs (construct self easy_defaults)))
      = no_body) /\
  (forall lib cs,
      request_payload
        (outgoing DELETE (configure cs (fst (invoke GET lib h))))
      = no_body).
Proof.
  repeat match goal with |- _ /\ _ => split end.
  - intros v lib. apply invoke_frame.
  - apply payload_GET.
  - apply payload_POST.
  - apply payload_PUT.
  - apply (payload_POST (with_body EmptyString h)).
  - apply (payload_PUT (with_body EmptyString h)).
  - intros v0 lib0 h0.
    destruct (invoke_frame v0 lib0 h) as (_ & _ & _ & _ & _ & Hb).
    fold h0 in Hb. rewrite <- Hb.
    split; [apply payload_GET|]. split; [apply payload_POST|apply payload_PUT].
  - apply payload_DELETE.
  - intros self cs. rewrite payload_DELETE. apply configure_payload.
    reflexivity.
  - intros lib cs. rewrite payload_DELETE. apply configure_payload.
    destruct (invoke_frame GET lib h) as (_ & E & _).
    rewrite E. unfold outgoing, transfer_handle. simpl.
    destruct (headers_ h); reflexivity.
Qed.

(** C1.  The code breaks the claim for [del()]: after a [post()] of the
    one-byte body x has returned, a [del()] on the same object runs the
    engine on a handle that still sends that body with its length 1, under
    the method word DELETE, where a [get()] after the same [post()] sends
    none.  If the body is set again in between, [del()] still sends a body
    of the registered size 1, read through the pointer the assignment has
    invalidated.  On a constructed object that has not posted, [del()] sends
    no body. *)
Lemma del_after_post_sends_body :
  let h := fst (post lib_up with_x) in
  snd (post lib_up with_x)
  = Returned (mkHttpResponse 200 "ok" ["HTTP/1.1 200 OK"]) /\
  request_method (easy_ (fst (del lib_up h))) = "DELETE" /\
  request_payload (easy_ (fst (del lib_up h))) = post_data "x" 1 /\
  request_payload (easy_ (fst (del lib_up h))) <> no_body /\
  request_payload (easy_ (fst (get lib_up h))) = no_body /\
  request_payload (easy_ (fst (del lib_up (set_body "yy" EmptyString h))))
  = stale_data 1 /\
  request_payload (easy_ (fst (del lib_up with_x))) = no_body.
Proof.
  vm_compute. repeat match goal with |- _ /\ _ => split end;
    try reflexivity. discriminate.
Qed.

Lemma custom_method_after (v : Verb) (word : string) :
  (forall h, opt_customrequest (outgoing v h) = Some word) ->
  custom_method_survives_get v word.
Proof.
  intros Hv lib1 lib2 cs h h1.
  assert (C : opt_customrequest (easy_ h1) = Some word).
  { subst h1. destruct (configure_selection cs (fst (invoke v lib1 h)))
      as (_ & _ & -> & _).
    destruct (invoke_frame v lib1 h) as (_ & -> & _). apply Hv. }
  assert (G : opt_customrequest (outgoing GET h1) = Some word)
    by now rewrite outgoing_customrequest_GET.
  repeat split.
  - exact C.
  - exact G.
  - unfold request_method. now rewrite G.
  - destruct (invoke_frame GET lib2 h1) as (_ & E & _).
    simpl in E. now rewrite E.
Qed.

(** C9.  After [del()] (resp. [put()]) and any further configuration calls,
    a [get()] writes the request-kind selector only: the custom method
    string DELETE (resp. PUT) is still set on the handle the engine runs on,
    is the method word of that exchange, and stays set afterwards. *)
Theorem get_keeps_custom_method :
  custom_method_survives_get DELETE "DELETE" /\
  custom_method_survives_get PUT "PUT".
Proof.
  split; apply custom_method_after; intros h;
    unfold outgoing, transfer_handle; simpl;
    destruct (headers_ h); reflexivity.
Qed.

(** ** Construction *)

(** C7.  When [curl_easy_init] yields no handle the constructor throws
    "curl_easy_init failed".  Otherwise it returns an object whose handle
    follows redirects (1), has timeout 0, carries the user agent
    "net::HttpRequest/1.0", has the error buffer, the body sink and the
    header sink registered, both sinks bound to the new object itself, and
    whose members are otherwise empty. *)
Theorem constructor_installs_defaults (self : object_id) (e : CURL) :
  HttpRequest_new self (curl_easy_init false)
  = Thrown (runtime_error "curl_easy_init failed") /\
  HttpRequest_new self None = Thrown (runtime_error "curl_easy_init failed") /\
  exists h,
    HttpRequest_new self (Some e) = Returned h /\
    this h = self /\
    opt_followlocation (easy_ h) = 1%Z /\
    opt_timeout_ms (easy_ h) = 0%Z /\
    opt_useragent (easy_ h) = Some "net::HttpRequest/1.0" /\
    user_agent_ h = "net::HttpRequest/1.0" /\
    opt_errorbuffer (easy_ h) = true /\
    opt_writefunction (easy_ h) = Some write_body_cb /\
    opt_writedata (easy_ h) = Some self /\
    opt_headerfunction (easy_ h) = Some write_header_cb /\
    opt_headerdata (easy_ h) = Some self /\
    headers_ h = [] /\ url_ h = EmptyString /\ body_ h = EmptyString /\
    response_ h = HttpResponse_default /\
    errbuf_storage_ h = zeros CURL_ERROR_SIZE /\
    wired h.
Proof.
  split; [reflexivity|]. split; [reflexivity|].
  exists (construct self e).
  repeat match goal with |- _ /\ _ => split end; try reflexivity.
  apply wired_construct.
Qed.

(** ** Header lines *)

Lemma content_type_line_c_str (ct : string) :
  c_str ("Content-Type: " ++ ct) = content_type_line ct.
Proof. unfold content_type_line. apply c_str_app. reflexivity. Qed.

Lemma set_body_headers (b ct : string) (h : HttpRequest) :
  headers_ (set_body b ct h)
  = (headers_ h ++ (if empty ct then [] else [content_type_line ct]))%list.
Proof.
  unfold set_body, add_header, curl_slist_append.
  destruct ct as [|c r]; simpl negb; cbv iota.
  - simpl. now rewrite app_nil_r.
  - unfold with_headers. cbn [headers_ with_body].
    now rewrite content_type_line_c_str.
Qed.

Lemma outgoing_headers_nonempty (v : Verb) (h : HttpRequest) (l : list string) :
  headers_ h = l -> l <> [] -> opt_httpheader (outgoing v h) = Some l.
Proof.
  intros E N. rewrite outgoing_httpheader, E.
  destruct l; [contradiction|reflexivity].
Qed.

(** C4.  [set_body] with a non-empty content type leaves the earlier header
    lines in place and appends one line after them, "Content-Type: "
    followed by the content type as a C string (the content type itself when
    it has no NUL byte); with an empty content type the header list is
    unchanged.  The next verb hands the engine exactly that list. *)
Theorem set_body_appends_content_type
  (b ct : string) (h : HttpRequest) (v : Verb) :
  headers_ (set_body b ct h)
  = (headers_ h ++ (if empty ct then [] else [("Content-Type: " ++ c_str ct)%string]))%list /\
  List.length (headers_ (set_body b ct h))
  = List.length (headers_ h) + (if empty ct then 0 else 1) /\
  (nul_free ct ->
   headers_ (set_body b ct h)
   = (headers_ h ++ (if empty ct then [] else [("Content-Type: " ++ ct)%string]))%list) /\
  (empty ct = false ->
   opt_httpheader (outgoing v (set_body b ct h))
   = Some (headers_ h ++ [("Content-Type: " ++ c_str ct)%string])%list) /\
  headers_ (set_body b EmptyString h) = headers_ h /\
  body_ (set_body b ct h) = b.
Proof.
  pose proof (set_body_headers b ct h) as E.
  unfold content_type_line in E.
  repeat match goal with |- _ /\ _ => split end.
  - exact E.
  - rewrite E, length_app. destruct (empty ct); reflexivity.
  - intros F. rewrite E. unfold nul_free in F. now rewrite F.
  - intros F. rewrite F in E. apply outgoing_headers_nonempty; [exact E|].
    intros C. apply app_eq_nil in C. destruct C as [_ C]. discriminate.
  - rewrite (set_body_headers b EmptyString h). apply app_nil_r.
  - unfold set_body. destruct (negb (empty ct)); reflexivity.
Qed.

Lemma set_body_appends_content_type_witness :
  nul_free "application/json" /\
  empty "application/json" = false /\
  headers_ (set_body "{}" "application/json" (add_header "Accept: */*" fresh))
  = ["Accept: */*"; "Content-Type: application/json"] /\
  opt_httpheader
    (outgoing POST
       (set_body "{}" "application/json" (add_header "Accept: */*" fresh)))
  = Some ["Accept: */*"; "Content-Type: application/json"].
Proof.
  destruct (set_body_appends_content_type "{}" "application/json"
              (add_header "Accept: */*" fresh) POST)
    as (_ & _ & H & G & _).
  split; [reflexivity|]. split; [reflexivity|].
  split; [apply H; reflexivity | apply G; reflexivity].
Defined.

(** C8.  Two [set_body] calls with non-empty content types leave two
    Content-Type lines on the list, the earlier one first, after the lines
    that were there before.  Every later verb call runs the engine on a
    handle with that whole list attached (its result being the engine's
    answer on that handle) and leaves the list as it is, so the call after
    it sends both lines again. *)
Theorem set_body_twice_keeps_both_content_types
  (b1 ct1 b2 ct2 : string) (h : HttpRequest) :
  empty ct1 = false -> empty ct2 = false ->
  let h' := set_body b2 ct2 (set_body b1 ct1 h) in
  let both :=
    (headers_ h ++ [content_type_line ct1; content_type_line ct2])%list in
  headers_ h' = both /\
  (forall v lib,
      let res := invoke v lib h' in
      opt_httpheader (easy_ (fst res)) = Some both /\
      answers lib (easy_ (fst res)) (snd res) /\
      headers_ (fst res) = both) /\
  (forall v1 lib1 v2 lib2,
      let res := invoke v2 lib2 (fst (invoke v1 lib1 h')) in
      opt_httpheader (easy_ (fst res)) = Some both /\
      answers lib2 (easy_ (fst res)) (snd res) /\
      headers_ (fst res) = both).
Proof.
  intros E1 E2 h' both.
  assert (Hh : headers_ h' = both).
  { subst h' both. rewrite !set_body_headers, E1, E2, <- app_assoc.
    reflexivity. }
  assert (N : both <> []).
  { subst both. intros C. apply app_eq_nil in C. destruct C as [_ C].
    discriminate. }
  assert (K : forall v lib k, headers_ k = both ->
                headers_ (fst (invoke v lib k)) = both).
  { intros v lib k Hk. destruct (invoke_frame v lib k) as (_ & _ & -> & _).
    exact Hk. }
  split; [exact Hh|]. split.
  - intros v lib res. subst res.
    split; [now apply invoke_httpheader|].
    split; [apply invoke_answers|now apply K].
  - intros v1 lib1 v2 lib2 res. subst res.
    split; [apply invoke_httpheader; [now apply K|exact N]|].
    split; [apply invoke_answers|now apply K, K].
Qed.

Lemma set_body_twice_keeps_both_content_types_witness :
  headers_ (set_body "b" "text/plain" (set_body "a" "application/json" fresh))
  = ["Content-Type: application/json"; "Content-Type: text/plain"] /\
  opt_httpheader
    (easy_ (fst (put lib_down
                   (fst (post lib_up
                           (set_body "b" "text/plain"
                              (set_body "a" "application/json" fresh)))))))
  = Some ["Content-Type: application/json"; "Content-Type: text/plain"].
Proof.
  destruct (set_body_twice_keeps_both_content_types
              "a" "application/json" "b" "text/plain" fresh
              eq_refl eq_refl) as (H & _ & G).
  split; [exact H|]. exact (proj1 (G POST lib_up PUT lib_down)).
Defined.

(** ** Results and errors *)

(** C5.  A verb call ends in exactly one of two ways, decided by the code
    the engine returned for this one exchange: it throws (message
    "curl_easy_perform: ...") exactly when the code is not [CURLE_OK], and
    otherwise returns a record whose status is the response code read from
    the engine.  A failed exchange therefore never returns a record, with
    status 0 or any other. *)
Theorem verb_returns_or_raises (v : Verb) (lib : Engine) (h : HttpRequest) :
  let o := curl_easy_perform lib (outgoing v h) in
  match snd (invoke v lib h) with
  | Thrown (runtime_error w) =>
      rc o <> CURLE_OK /\ exists d, w = "curl_easy_perform: " ++ d
  | Returned r => rc o = CURLE_OK /\ status r = response_code o
  end.
Proof.
  rewrite invoke_unfold. unfold outgoing.
  apply (perform_outcome lib (select v (reset_buffers h))).
Qed.

Lemma perform_errbuf (lib : Engine) (h : HttpRequest) :
  wired h ->
  c_str (errbuf_storage_ h) = EmptyString ->
  c_str (errbuf_storage_ (fst (perform lib h)))
  = match errtext (curl_easy_perform lib (transfer_handle h)) with
    | Some m => substring 0 (CURL_ERROR_SIZE - 1) (c_str m)
    | None => EmptyString
    end.
Proof.
  intros W B. unfold perform.
  set (h1 := match headers_ h with [] => h | _ :: _ => _ end).
  assert (E1 : easy_ h1 = transfer_handle h).
  { subst h1. unfold transfer_handle. destruct (headers_ h); reflexivity. }
  assert (B1 : errbuf_storage_ h1 = errbuf_storage_ h).
  { subst h1. destruct (headers_ h); reflexivity. }
  assert (We : opt_errorbuffer (easy_ h1) = true).
  { rewrite E1.
    destruct (transfer_handle_configuration h) as (_ & _ & _ & _ & -> & _).
    apply W. }
  rewrite E1. generalize (curl_easy_perform lib (transfer_handle h)).
  intros o.
  assert (G : c_str (errbuf_storage_ (engine_effect o h1))
              = match errtext o with
                | Some m => substring 0 (CURL_ERROR_SIZE - 1) (c_str m)
                | None => EmptyString
                end).
  { unfold engine_effect. rewrite (deliveries_frame (deliveries o) h1).
    destruct (errtext o) as [m|]; simpl.
    - rewrite We. simpl. apply c_str_store_cstr. rewrite B1. apply W.
    - now rewrite B1. }
  destruct (negb (rc o =? CURLE_OK)%Z); simpl; exact G.
Qed.

Lemma invoke_errbuf (v : Verb) (lib : Engine) (h : HttpRequest) :
  wired h ->
  c_str (errbuf_storage_ (fst (invoke v lib h)))
  = match errtext (curl_easy_perform lib (outgoing v h)) with
    | Some m => substring 0 (CURL_ERROR_SIZE - 1) (c_str m)
    | None => EmptyString
    end.
Proof.
  intros W. rewrite invoke_unfold. unfold outgoing.
  apply perform_errbuf.
  - apply wired_select, wired_reset_buffers, W.
  - rewrite (select_frame v (reset_buffers h)). simpl. apply c_str_poke0.
Qed.

(** C6.  When the engine reports failure, the message thrown is
    "curl_easy_perform: " followed by the C string in the error buffer if
    that string is not empty, and by [curl_easy_strerror] of the code only
    if it is empty.  The buffer holds what the engine stored during this
    exchange (cut to the buffer's size), or the empty string when the engine
    stored nothing. *)
Theorem transfer_error_prefers_error_buffer
  (v : Verb) (lib : Engine) (h : HttpRequest) :
  wired h ->
  let o := curl_easy_perform lib (outgoing v h) in
  let buf := c_str (errbuf_storage_ (fst (invoke v lib h))) in
  rc o <> CURLE_OK ->
  snd (invoke v lib h)
  = Thrown (runtime_error
              ("curl_easy_perform: "
               ++ (if empty buf then curl_easy_strerror lib (rc o) else buf)))
  /\ buf = match errtext o with
           | Some m => substring 0 (CURL_ERROR_SIZE - 1) (c_str m)
           | None => EmptyString
           end.
Proof.
  intros W o buf F.
  assert (B := invoke_errbuf v lib h W). fold o in B. fold buf in B.
  split; [|exact B].
  rewrite (invoke_result v lib h W). fold o. unfold exchange_result.
  destruct (Z.eqb_spec (rc o) CURLE_OK) as [Hok|_]; [contradiction|].
  do 2 f_equal. rewrite B. unfold diagnostic.
  destruct (errtext o); reflexivity.
Qed.

Lemma transfer_error_prefers_error_buffer_witness :
  wired with_x /\
  rc (curl_easy_perform lib_down (outgoing GET with_x)) <> CURLE_OK /\
  snd (get lib_down with_x)
  = Thrown (runtime_error
              "curl_easy_perform: Failed to connect to example.test port 80")
  /\ snd (get lib_mute with_x)
     = Thrown (runtime_error "curl_easy_perform: Could not connect to server").
Proof.
  assert (W : wired with_x) by (vm_compute; repeat split; reflexivity).
  assert (F : rc (curl_easy_perform lib_down (outgoing GET with_x))
              <> CURLE_OK) by (vm_compute; discriminate).
  assert (F' : rc (curl_easy_perform lib_mute (outgoing GET with_x))
               <> CURLE_OK) by (vm_compute; discriminate).
  split; [exact W|]. split; [exact F|].
  destruct (transfer_error_prefers_error_buffer GET lib_down with_x W F)
    as (H & _).
  destruct (transfer_error_prefers_error_buffer GET lib_mute with_x W F')
    as (H' & _).
  split; [exact H|exact H'].
Defined.

(** ** No leakage between exchanges *)

Lemma reset_buffers_clears (h : HttpRequest) :
  response_ (reset_buffers h) = HttpResponse_default /\
  c_str (errbuf_storage_ (reset_buffers h)) = EmptyString /\
  peek0 (errbuf_storage_ (reset_buffers h)) = NUL.
Proof.
  unfold reset_buffers. simpl. split; [reflexivity|].
  split; [apply c_str_poke0|]. destruct (errbuf_storage_ h); reflexivity.
Qed.

(** C2.  Every verb starts from cleared response state: after
    [reset_buffers] the response is [HttpResponse{}] and the error buffer
    reads as the empty string, and each verb is [reset_buffers] followed by
    its option writes and [perform].  Hence the result of a verb call is
    made of its own exchange only (status, delivered body bytes and header
    lines, or this exchange's diagnostic), and the result of a second call
    is the same whatever the first call received or failed with. *)
Theorem verb_clears_previous_exchange
  (v1 v2 : Verb) (lib1 lib1' lib2 : Engine) (h : HttpRequest) :
  wired h ->
  let h1 := fst (invoke v1 lib1 h) in
  response_ (reset_buffers h1) = HttpResponse_default /\
  c_str (errbuf_storage_ (reset_buffers h1)) = EmptyString /\
  invoke v2 lib2 h1 = perform lib2 (select v2 (reset_buffers h1)) /\
  snd (invoke v2 lib2 h1)
  = exchange_result lib2 (curl_easy_perform lib2 (outgoing v2 h1)) /\
  snd (invoke v2 lib2 h1) = snd (invoke v2 lib2 (fst (invoke v1 lib1' h))).
Proof.
  intros W h1.
  destruct (reset_buffers_clears h1) as (R1 & R2 & _).
  assert (W1 : wired h1) by apply wired_invoke, W.
  split; [exact R1|]. split; [exact R2|].
  split; [apply invoke_unfold|].
  split; [apply invoke_result, W1|].
  rewrite (invoke_result v2 lib2 h1 W1).
  rewrite (invoke_result v2 lib2 (fst (invoke v1 lib1' h)))
    by apply wired_invoke, W.
  destruct (invoke_frame v1 lib1 h) as (_ & A1 & A2 & _ & _ & A3).
  destruct (invoke_frame v1 lib1' h) as (_ & B1 & B2 & _ & _ & B3).
  f_equal. f_equal. apply outgoing_ext; subst h1; congruence.
Qed.

Lemma verb_clears_previous_exchange_witness :
  wired with_x /\
  snd (get lib_up with_x)
  = Returned (mkHttpResponse 200 "ok" ["HTTP/1.1 200 OK"]) /\
  snd (get lib_up (fst (get lib_up with_x)))
  = snd (get lib_up (fst (get lib_down with_x))) /\
  snd (get lib_up (fst (get lib_up with_x)))
  = Returned (mkHttpResponse 200 "ok" ["HTTP/1.1 200 OK"]).
Proof.
  assert (W : wired with_x) by (vm_compute; repeat split; reflexivity).
  destruct (verb_clears_previous_exchange GET GET lib_up lib_down lib_up
              with_x W) as (_ & _ & _ & H & G).
  split; [exact W|]. split; [reflexivity|]. split; [exact G|exact H].
Defined.

(** ** Failure leaves the configuration alone *)

Lemma outgoing_idem (v : Verb) (h : HttpRequest) :
  outgoing v (with_easy (outgoing v h) h) = outgoing v h.
Proof.
  destruct h as [t e hs u ua b r eb].
  unfold outgoing, transfer_handle.
  destruct v; destruct hs; reflexivity.
Qed.

(** C10 (as amended).  When a verb call throws, the members [url_],
    [user_agent_], [body_] and [headers_] are what they were when the call
    began, and so is every option installed by the constructor or by a
    configuration call (URL, timeout, redirect flag, user agent, error
    buffer, sinks and their user data).  The request-selection options hold
    what the failing verb wrote before the exchange, as after a successful
    call: the custom method word is DELETE or PUT after [del()] or [put()]
    and untouched by [get()] and [post()]; the request kind is GET after
    [get()], POST after [post()] and [put()], untouched by [del()]; the
    payload pointer and size are the current body's after [post()] and
    [put()], untouched by [get()] and [del()]; the attached header list is
    the current non-empty list.  The object is still wired, and calling the
    same verb again asks for the same request. *)
Theorem failed_verb_keeps_configuration
  (v : Verb) (lib : Engine) (h : HttpRequest) (e : exception) :
  snd (invoke v lib h) = Thrown e ->
  let h' := fst (invoke v lib h) in
  url_ h' = url_ h /\ user_agent_ h' = user_agent_ h /\
  body_ h' = body_ h /\ headers_ h' = headers_ h /\
  same_configuration (easy_ h') (easy_ h) /\
  easy_ h' = outgoing v h /\
  (wired h -> wired h') /\
  outgoing v h' = outgoing v h /\
  opt_customrequest (easy_ h')
  = match v with
    | DELETE => Some "DELETE"
    | PUT => Some "PUT"
    | _ => opt_customrequest (easy_ h)
    end /\
  method (easy_ h')
  = match v with
    | GET => HTTPREQ_GET
    | DELETE => method (easy_ h)
    | _ => HTTPREQ_POST
    end /\
  opt_postfields (easy_ h')
  = match v with
    | POST | PUT => Some (live (body_ h))
    | _ => opt_postfields (easy_ h)
    end /\
  opt_postfieldsize (easy_ h')
  = match v with
    | POST | PUT => Z.of_nat (String.length (body_ h))
    | _ => opt_postfieldsize (easy_ h)
    end /\
  opt_httpheader (easy_ h')
  = match headers_ h with
    | [] => opt_httpheader (easy_ h)
    | _ :: _ => Some (headers_ h)
    end.
Proof.
  intros _ h'.
  destruct (invoke_frame v lib h) as (T & E & Hh & Hu & Ha & Hb).
  fold h' in T, E, Hh, Hu, Ha, Hb.
  repeat match goal with |- _ /\ _ => split end; try assumption.
  - rewrite E. apply outgoing_configuration.
  - apply wired_invoke.
  - rewrite <- (outgoing_idem v h). apply outgoing_ext; simpl; assumption.
  - rewrite E. apply outgoing_selection.
  - rewrite E. apply outgoing_selection.
  - rewrite E. unfold outgoing, transfer_handle.
    destruct v; simpl; destruct (headers_ h); reflexivity.
  - rewrite E. unfold outgoing, transfer_handle.
    destruct v; simpl; destruct (headers_ h); reflexivity.
  - rewrite E. apply outgoing_httpheader.
Qed.

Lemma failed_verb_keeps_configuration_witness :
  snd (post lib_down with_x)
  = Thrown (runtime_error
              "curl_easy_perform: Failed to connect to example.test port 80")
  /\ url_ (fst (post lib_down with_x)) = "http://example.test/post"
  /\ body_ (fst (post lib_down with_x)) = "x"
  /\ opt_url (easy_ (fst (post lib_down with_x)))
     = Some "http://example.test/post"
  /\ snd (post lib_up (fst (post lib_down with_x)))
     = Returned (mkHttpResponse 200 "ok" ["HTTP/1.1 200 OK"]).
Proof.
  assert (F : snd (invoke POST lib_down with_x)
              = Thrown (runtime_error
                          "curl_easy_perform: Failed to connect to example.test port 80"))
    by reflexivity.
  destruct (failed_verb_keeps_configuration POST lib_down with_x _ F)
    as (Hu & _ & Hb & _ & (Ho & _) & _).
  split; [exact F|]. split; [exact Hu|]. split; [exact Hb|].
  split; [exact Ho|]. reflexivity.
Defined.

(** C10, as stated, fails: on an object that has made a [del()], a [put()]
    that throws leaves the custom method option, which was DELETE when the
    call began, at PUT, together with the request kind and payload it
    selected. *)
Lemma failed_put_rewrites_custom_method :
  let h := fst (del lib_up with_x) in
  opt_customrequest (easy_ h) = Some "DELETE" /\
  method (easy_ h) = HTTPREQ_GET /\
  snd (put lib_down h)
  = Thrown (runtime_error
              "curl_easy_perform: Failed to connect to example.test port 80")
  /\ opt_customrequest (easy_ (fst (put lib_down h))) = Some "PUT"
  /\ method (easy_ (fst (put lib_down h))) = HTTPREQ_POST
  /\ opt_customrequest (easy_ (fst (put lib_down h)))
     <> opt_customrequest (easy_ h).
Proof.
  vm_compute. repeat match goal with |- _ /\ _ => split end;
    try reflexivity. discriminate.
Qed.

(** ** Chains of configuration calls *)

Lemma last_default_irrelevant {A : Type} (l : list A) (y d d' : A) :
  last (y :: l) d = last (y :: l) d'.
Proof.
  revert y. induction l as [|a l IH]; intros y; [reflexivity|].
  change (last (a :: l) d = last (a :: l) d'). apply IH.
Qed.

Lemma last_cons {A : Type} (x d : A) (l : list A) :
  last (x :: l) d = last l x.
Proof.
  destruct l as [|y l]; [reflexivity|].
  change (last (y :: l) d = last (y :: l) x).
  apply last_default_irrelevant.
Qed.

Lemma configure_cons (c : Config) (cs : list Config) (h : HttpRequest) :
  configure (c :: cs) h = configure cs (apply_config h c).
Proof. reflexivity. Qed.

Lemma configure_members (cs : list Config) (h : HttpRequest) :
  url_ (configure cs h) = last (urls_written cs) (url_ h) /\
  user_agent_ (configure cs h)
  = last (user_agents_written cs) (user_agent_ h) /\
  body_ (configure cs h) = last (bodies_written cs) (body_ h) /\
  headers_ (configure cs h) = (headers_ h ++ header_lines_written cs)%list.
Proof.
  revert h. induction cs as [|c cs IH]; intros h.
  - simpl. rewrite app_nil_r. auto.
  - rewrite configure_cons.
    destruct (IH (apply_config h c)) as (A1 & A2 & A3 & A4).
    rewrite A1, A2, A3, A4.
    unfold urls_written, user_agents_written, bodies_written,
      header_lines_written.
    destruct c; cbn [flat_map app apply_config];
      rewrite ?last_cons; try (repeat split; reflexivity).
    + repeat split. unfold add_header, curl_slist_append. simpl.
      now rewrite <- app_assoc.
    + rewrite set_body_headers.
      repeat split; try (unfold set_body;
                         destruct (negb (empty content_type)); reflexivity).
      rewrite <- app_assoc. destruct (empty content_type); reflexivity.
Qed.

Lemma configure_options (cs : list Config) (h : HttpRequest) :
  opt_url (easy_ (configure cs h))
  = last (map (fun u => Some (c_str u)) (urls_written cs))
      (opt_url (easy_ h)) /\
  opt_timeout_ms (easy_ (configure cs h))
  = last (timeouts_written cs) (opt_timeout_ms (easy_ h)) /\
  opt_useragent (easy_ (configure cs h))
  = last (map (fun u => Some (c_str u)) (user_agents_written cs))
      (opt_useragent (easy_ h)).
Proof.
  revert h. induction cs as [|c cs IH]; intros h.
  - simpl. auto.
  - rewrite configure_cons.
    destruct (IH (apply_config h c)) as (A1 & A2 & A3).
    rewrite A1, A2, A3.
    unfold urls_written, timeouts_written, user_agents_written.
    destruct c; cbn [flat_map app apply_config map];
      rewrite ?last_cons; try (repeat split; reflexivity).
    unfold set_body. destruct (negb (empty content_type));
      repeat split; reflexivity.
Qed.

Lemma outgoing_surface (v : Verb) (h : HttpRequest) :
  opt_url (outgoing v h) = opt_url (easy_ h) /\
  opt_timeout_ms (outgoing v h) = opt_timeout_ms (easy_ h) /\
  opt_useragent (outgoing v h) = opt_useragent (easy_ h).
Proof.
  destruct (outgoing_configuration v h) as (A1 & A2 & _ & A4 & _). auto.
Qed.

Lemma invalidate_postfields_idem (e : CURL) :
  invalidate_postfields (invalidate_postfields e) = invalidate_postfields e.
Proof.
  unfold invalidate_postfields. simpl.
  destruct (opt_postfields e); reflexivity.
Qed.

Lemma assign_body_twice (b1 b2 : string) (h : HttpRequest) :
  assign_body b2 (assign_body b1 h) = assign_body b2 h.
Proof.
  unfold assign_body, with_easy, with_body. simpl.
  now rewrite invalidate_postfields_idem.
Qed.

Lemma setters_twice_is_once : twice_is_once.
Proof.
  unfold twice_is_once.
  repeat match goal with |- _ /\ _ => split end; intros.
  - destruct h; reflexivity.
  - destruct h; reflexivity.
  - destruct h; reflexivity.
  - unfold set_body. cbn [empty negb].
    now rewrite assign_body_twice.
  - destruct ct1 as [|c1 r1].
    + simpl. rewrite app_nil_r. unfold set_body at 2. cbn [empty negb].
      unfold set_body. rewrite assign_body_twice.
      destruct h; reflexivity.
    + unfold set_body at 2. cbn [empty negb].
      unfold add_header, curl_slist_append.
      rewrite content_type_line_c_str.
      unfold set_body. destruct (negb (empty ct2));
        unfold add_header, assign_body, with_headers, with_easy, with_body;
        simpl; rewrite invalidate_postfields_idem; destruct h; reflexivity.
Qed.

(** C3.  After any chain of configuration calls, the verb call that follows
    runs the engine on a handle whose URL, timeout and user agent are the
    values of the last [set_url], [set_timeout_ms] and [set_user_agent] of
    the chain (as C strings; what the handle had before when the chain has
    no such call), and its result is the engine's answer on that handle;
    [post()] and [put()] send the body of the last [set_body] with its
    length.  The header list is the earlier list followed by one line per
    [add_header], and per [set_body] with a content type, in call order,
    duplicates kept, and that is the list attached for the exchange.
    Calling [set_url], [set_timeout_ms] or [set_user_agent] twice gives the
    same object as calling it once with the second value; so does
    [set_body], apart from the Content-Type line a first call with a content
    type has appended. *)
Theorem configuration_last_write_wins
  (cs : list Config) (v : Verb) (lib : Engine) (h : HttpRequest) :
  let h' := configure cs h in
  let sent := easy_ (fst (invoke v lib h')) in
  let body := last (bodies_written cs) (body_ h) in
  answers lib sent (snd (invoke v lib h')) /\
  (wired h ->
   snd (invoke v lib h') = exchange_result lib (curl_easy_perform lib sent)) /\
  opt_url sent
  = last (map (fun u => Some (c_str u)) (urls_written cs))
      (opt_url (easy_ h)) /\
  opt_timeout_ms sent
  = last (timeouts_written cs) (opt_timeout_ms (easy_ h)) /\
  opt_useragent sent
  = last (map (fun u => Some (c_str u)) (user_agents_written cs))
      (opt_useragent (easy_ h)) /\
  opt_httpheader sent
  = match (headers_ h ++ header_lines_written cs)%list with
    | [] => opt_httpheader (easy_ h)
    | l => Some l
    end /\
  request_payload (easy_ (fst (post lib h')))
  = post_data body (Z.of_nat (String.length body)) /\
  request_payload (easy_ (fst (put lib h')))
  = post_data body (Z.of_nat (String.length body)) /\
  answers lib (easy_ (fst (post lib h'))) (snd (post lib h')) /\
  answers lib (easy_ (fst (put lib h'))) (snd (put lib h')) /\
  url_ h' = last (urls_written cs) (url_ h) /\
  user_agent_ h' = last (user_agents_written cs) (user_agent_ h) /\
  body_ h' = body /\
  headers_ h' = (headers_ h ++ header_lines_written cs)%list /\
  twice_is_once.
Proof.
  intros h' sent body.
  destruct (configure_members cs h) as (M1 & M2 & M3 & M4).
  destruct (configure_options cs h) as (O1 & O2 & O3).
  fold h' in M1, M2, M3, M4, O1, O2, O3. fold body in M3.
  assert (Es : sent = outgoing v h').
  { subst sent. apply invoke_frame. }
  destruct (outgoing_surface v h') as (S1 & S2 & S3).
  repeat match goal with |- _ /\ _ => split end.
  - apply invoke_answers.
  - intros W. subst sent. rewrite Es. apply invoke_result.
    apply wired_configure, W.
  - now rewrite Es, S1.
  - now rewrite Es, S2.
  - now rewrite Es, S3.
  - rewrite Es, outgoing_httpheader, M4.
    destruct (headers_ h ++ header_lines_written cs)%list; [|reflexivity].
    subst h'. now destruct (configure_selection cs h) as (_ & _ & _ & ->).
  - destruct (invoke_frame POST lib h') as (_ & E & _).
    change (invoke POST lib h') with (post lib h') in E.
    now rewrite E, payload_POST, M3.
  - destruct (invoke_frame PUT lib h') as (_ & E & _).
    change (invoke PUT lib h') with (put lib h') in E.
    now rewrite E, payload_PUT, M3.
  - apply (invoke_answers POST).
  - apply (invoke_answers PUT).
  - exact M1.
  - exact M2.
  - exact M3.
  - exact M4.
  - apply setters_twice_is_once.
Qed.

Lemma configuration_last_write_wins_witness :
  wired fresh /\
  snd (post lib_up
         (configure [SetUrl "http://a.test/"; SetBody "one" "text/plain";
                     SetUrl "http://b.test/"; SetBody "two" EmptyString;
                     AddHeader "X: 1"] fresh))
  = Returned (mkHttpResponse 200 "ok" ["HTTP/1.1 200 OK"]) /\
  opt_url
    (easy_ (fst (post lib_up
                   (configure [SetUrl "http://a.test/";
                               SetBody "one" "text/plain";
                               SetUrl "http://b.test/";
                               SetBody "two" EmptyString;
                               AddHeader "X: 1"] fresh))))
  = Some "http://b.test/" /\
  request_payload
    (easy_ (fst (post lib_up
                   (configure [SetUrl "http://a.test/";
                               SetBody "one" "text/plain";
                               SetUrl "http://b.test/";
                               SetBody "two" EmptyString;
                               AddHeader "X: 1"] fresh))))
  = post_data "two" 3.
Proof.
  assert (W : wired fresh) by (vm_compute; repeat split; reflexivity).
  destruct (configuration_last_write_wins
              [SetUrl "http://a.test/"; SetBody "one" "text/plain";
               SetUrl "http://b.test/"; SetBody "two" EmptyString;
               AddHeader "X: 1"] POST lib_up fresh)
    as (_ & R & U & _ & _ & _ & P & _).
  split; [exact W|].
  split; [exact (eq_trans (R W) eq_refl)|].
  split; [exact U|exact P].
Defined.

(** * Further properties of the code *)

(** ** Histories of one object *)

Lemma run_cons (o : Op) (ops : list Op) (h : HttpRequest) :
  run (o :: ops) h = run ops (step h o).
Proof. reflexivity. Qed.

Lemma wired_step (o : Op) (h : HttpRequest) : wired h -> wired (step h o).
Proof.
  destruct o as [c|v lib]; simpl;
    [apply wired_apply_config|apply wired_invoke].
Qed.

Lemma wired_run (ops : list Op) (h : HttpRequest) :
  wired h -> wired (run ops h).
Proof.
  revert h. induction ops as [|o ops IH]; intros h W; [exact W|].
  rewrite run_cons. apply IH, wired_step, W.
Qed.

Lemma this_run (ops : list Op) (h : HttpRequest) :
  this (run ops h) = this h.
Proof.
  revert h. induction ops as [|o ops IH]; intros h; [reflexivity|].
  rewrite run_cons, IH. destruct o as [c|v lib]; simpl.
  - apply apply_config_configuration_wiring.
  - apply invoke_frame.
Qed.

(** X1.  Whatever is done with a constructed object (configuration calls,
    verb calls that succeed or throw, in any order), both sinks and the
    error buffer stay registered, the sinks stay bound to the object itself,
    and the error buffer keeps its [CURL_ERROR_SIZE] cells. *)
Theorem constructed_object_stays_wired
  (self : object_id) (e : CURL) (ops : list Op) :
  let h := run ops (construct self e) in
  wired h /\ this h = self /\
  String.length (errbuf_storage_ h) = 256.
Proof.
  intros h.
  assert (W : wired h) by apply wired_run, wired_construct.
  split; [exact W|]. split; [|apply W].
  subst h. now rewrite this_run.
Qed.

Lemma same_surface_refl (h : HttpRequest) : same_surface h h.
Proof. unfold same_surface; auto 10. Qed.

Lemma same_surface_apply_config (c : Config) (h h' : HttpRequest) :
  same_surface h h' -> same_surface (apply_config h c) (apply_config h' c).
Proof.
  unfold same_surface.
  destruct h as [t e hs u ua b r eb], h' as [t' e' hs' u' ua' b' r' eb'].
  simpl. intros (-> & -> & -> & -> & E1 & E2 & E3 & E4).
  destruct c; simpl; try (repeat split; assumption).
  unfold set_body. destruct (negb (empty content_type)); simpl;
    repeat split; assumption.
Qed.

Lemma same_surface_invoke (v : Verb) (lib : Engine) (h h' : HttpRequest) :
  same_surface h h' -> same_surface (fst (invoke v lib h)) h'.
Proof.
  unfold same_surface. intros (S1 & S2 & S3 & S4 & S5 & S6 & S7 & S8).
  destruct (invoke_frame v lib h) as (_ & E & Hh & Hu & Ha & Hb).
  destruct (outgoing_configuration v h) as (C1 & C2 & C3 & C4 & _).
  rewrite Hh, Hu, Ha, Hb, E, C1, C2, C3, C4. auto 10.
Qed.

Lemma same_surface_run (ops : list Op) (h h' : HttpRequest) :
  same_surface h h' ->
  same_surface (run ops h) (configure (configs_of ops) h').
Proof.
  revert h h'. induction ops as [|o ops IH]; intros h h' S; [exact S|].
  rewrite run_cons. destruct o as [c|v lib]; simpl.
  - apply IH, same_surface_apply_config, S.
  - apply IH, same_surface_invoke, S.
Qed.


(** X2.  Verb calls are transparent to the configuration: after any history
    of configuration and verb calls, the members and the configuration
    options are what the configuration calls of the history alone produce.
    Each of URL, user agent, body, timeout holds the value of the last call
    that set it, and the header list is the original list followed by one
    line per header-adding call, in call order: no call removes or reorders
    a header line. *)
Theorem verbs_are_transparent_to_configuration
  (ops : list Op) (h : HttpRequest) :
  let h' := run ops h in
  let cs := configs_of ops in
  same_surface h' (configure cs h) /\
  url_ h' = last (urls_written cs) (url_ h) /\
  user_agent_ h' = last (user_agents_written cs) (user_agent_ h) /\
  body_ h' = last (bodies_written cs) (body_ h) /\
  headers_ h' = (headers_ h ++ header_lines_written cs)%list /\
  opt_url (easy_ h')
  = last (map (fun u => Some (c_str u)) (urls_written cs))
      (opt_url (easy_ h)) /\
  opt_timeout_ms (easy_ h')
  = last (timeouts_written cs) (opt_timeout_ms (easy_ h)) /\
  opt_useragent (easy_ h')
  = last (map (fun u => Some (c_str u)) (user_agents_written cs))
      (opt_useragent (easy_ h)).
Proof.
  intros h' cs.
  pose proof (same_surface_run ops h h (same_surface_refl h)) as S.
  fold h' cs in S. split; [exact S|].
  destruct S as (S1 & S2 & S3 & S4 & S5 & S6 & _ & S8).
  destruct (configure_members cs h) as (M1 & M2 & M3 & M4).
  destruct (configure_options cs h) as (O1 & O2 & O3).
  rewrite S1, S2, S3, S4, S5, S6, S8. auto 10.
Qed.


(** ** Outgoing header lines are C strings *)




(** ** The method word and the request kind over a history *)








(** ** What an exchange leaves in the object and gives to the caller *)

Lemma perform_response (lib : Engine) (h : HttpRequest) :
  wired h ->
  response_ h = HttpResponse_default ->
  let o := curl_easy_perform lib (transfer_handle h) in
  response_ (fst (perform lib h))
  = mkHttpResponse (if (rc o =? CURLE_OK)%Z then response_code o else 0%Z)
      (received_body (deliveries o)) (received_headers (deliveries o)).
Proof.
  intros W R. unfold perform.
  set (h1 := match headers_ h with [] => h | _ :: _ => _ end).
  assert (E1 : easy_ h1 = transfer_handle h).
  { subst h1. unfold transfer_handle. destruct (headers_ h); reflexivity. }
  assert (R1 : response_ h1 = HttpResponse_default).
  { subst h1. destruct (headers_ h); exact R. }
  assert (W1 : wired h1).
  { revert W. apply wired_transport.
    - subst h1. destruct (headers_ h); reflexivity.
    - rewrite E1. apply transfer_handle_configuration.
    - subst h1. destruct (headers_ h); reflexivity. }
  rewrite E1. cbv zeta.
  generalize (curl_easy_perform lib (transfer_handle h)). intros o.
  assert (R2 : response_ (engine_effect o h1)
               = mkHttpResponse 0 (received_body (deliveries o))
                   (received_headers (deliveries o))).
  { unfold engine_effect.
    assert (Rf := deliveries_wired (deliveries o) h1 W1).
    rewrite R1 in Rf. simpl in Rf.
    destruct (errtext o); [destruct (opt_errorbuffer _)|]; exact Rf. }
  destruct (rc o =? CURLE_OK)%Z; simpl; rewrite R2; reflexivity.
Qed.

Lemma invoke_response (v : Verb) (lib : Engine) (h : HttpRequest) :
  wired h ->
  let o := curl_easy_perform lib (outgoing v h) in
  response_ (fst (invoke v lib h))
  = mkHttpResponse (if (rc o =? CURLE_OK)%Z then response_code o else 0%Z)
      (received_body (deliveries o)) (received_headers (deliveries o)).
Proof.
  intros W. rewrite invoke_unfold. unfold outgoing.
  apply perform_response.
  - apply wired_select, wired_reset_buffers, W.
  - destruct v; reflexivity.
Qed.

Lemma received_body_app (ds1 ds2 : list Delivery) :
  received_body (ds1 ++ ds2) = received_body ds1 ++ received_body ds2.
Proof.
  induction ds1 as [|d ds1 IH]; [reflexivity|].
  destruct d; simpl; rewrite IH; [now rewrite string_app_assoc|reflexivity].
Qed.

Lemma received_headers_app (ds1 ds2 : list Delivery) :
  received_headers (ds1 ++ ds2)
  = (received_headers ds1 ++ received_headers ds2)%list.
Proof.
  induction ds1 as [|d ds1 IH]; [reflexivity|].
  destruct d; simpl; now rewrite IH.
Qed.

Lemma received_body_length (ds : list Delivery) :
  String.length (received_body ds)
  = fold_right (fun d n =>
                  match d with
                  | BodyChunk data => String.length data + n
                  | HeaderLine _ => n
                  end) 0 ds.
Proof.
  induction ds as [|d ds IH]; [reflexivity|].
  destruct d; simpl; [|exact IH].
  rewrite <- IH. clear IH. induction data as [|c r IHr]; simpl; [reflexivity|].
  now rewrite IHr.
Qed.

(** X7.  A successful verb call on a constructed object returns, and leaves
    in the object, the record of this exchange: the status read from the
    engine, the body chunks joined in delivery order and the header lines in
    delivery order, each line as delivered (NUL bytes and line ends
    included).  Body and header deliveries may interleave freely, and the
    body's length is the sum of the chunk lengths: no delivered byte is
    dropped or duplicated. *)
Theorem successful_exchange_record
  (v : Verb) (lib : Engine) (h : HttpRequest) :
  wired h ->
  let o := curl_easy_perform lib (outgoing v h) in
  rc o = CURLE_OK ->
  let r := mkHttpResponse (response_code o) (received_body (deliveries o))
             (received_headers (deliveries o)) in
  snd (invoke v lib h) = Returned r /\
  response_ (fst (invoke v lib h)) = r /\
  String.length (body r)
  = fold_right (fun d n =>
                  match d with
                  | BodyChunk data => String.length data + n
                  | HeaderLine _ => n
                  end) 0 (deliveries o) /\
  (forall ds1 ds2, deliveries o = (ds1 ++ ds2)%list ->
     body r = received_body ds1 ++ received_body ds2 /\
     headers r = (received_headers ds1 ++ received_headers ds2)%list).
Proof.
  intros W o Hok r.
  repeat match goal with |- _ /\ _ => split end.
  - rewrite (invoke_result v lib h W). fold o. unfold exchange_result.
    rewrite Hok. reflexivity.
  - rewrite (invoke_response v lib h W). fold o. rewrite Hok. reflexivity.
  - apply received_body_length.
  - intros ds1 ds2 E. subst r. simpl. rewrite E.
    split; [apply received_body_app|apply received_headers_app].
Qed.

Lemma successful_exchange_record_witness :
  wired with_x /\
  rc (curl_easy_perform lib_up (outgoing PUT with_x)) = CURLE_OK /\
  snd (put lib_up with_x)
  = Returned (mkHttpResponse 200 "ok" ["HTTP/1.1 200 OK"]) /\
  response_ (fst (put lib_up with_x))
  = mkHttpResponse 200 "ok" ["HTTP/1.1 200 OK"].
Proof.
  assert (W : wired with_x) by (vm_compute; repeat split; reflexivity).
  destruct (successful_exchange_record PUT lib_up with_x W eq_refl)
    as (A & B & _).
  split; [exact W|]. split; [reflexivity|]. split; [exact A|exact B].
Defined.

(** X8.  A verb call that throws hands nothing of the exchange to the
    caller, but the object keeps what was delivered before the failure, with
    status 0: the status is written on success only.  The next verb call
    starts from an empty record again. *)
Theorem failed_exchange_keeps_partial_response
  (v : Verb) (lib : Engine) (h : HttpRequest) :
  wired h ->
  let o := curl_easy_perform lib (outgoing v h) in
  rc o <> CURLE_OK ->
  let h' := fst (invoke v lib h) in
  response_ h'
  = mkHttpResponse 0 (received_body (deliveries o))
      (received_headers (deliveries o)) /\
  (exists e, snd (invoke v lib h) = Thrown e) /\
  (forall v2, response_ (select v2 (reset_buffers h')) = HttpResponse_default).
Proof.
  intros W o F h'.
  assert (Hko : (rc o =? CURLE_OK)%Z = false) by now apply Z.eqb_neq.
  repeat match goal with |- _ /\ _ => split end.
  - subst h'. rewrite (invoke_response v lib h W). fold o.
    now rewrite Hko.
  - rewrite (invoke_result v lib h W). fold o. unfold exchange_result.
    rewrite Hko. eexists. reflexivity.
  - intros v2. destruct v2; reflexivity.
Qed.

Lemma failed_exchange_keeps_partial_response_witness :
  wired with_x /\
  rc (curl_easy_perform lib_verbose (outgoing GET with_x)) <> CURLE_OK /\
  response_ (fst (get lib_verbose with_x)) = mkHttpResponse 0 "par" [].
Proof.
  assert (W : wired with_x) by (vm_compute; repeat split; reflexivity).
  assert (F : rc (curl_easy_perform lib_verbose (outgoing GET with_x))
              <> CURLE_OK) by (vm_compute; discriminate).
  destruct (failed_exchange_keeps_partial_response GET lib_verbose with_x W F)
    as (A & _).
  split; [exact W|]. split; [exact F|exact A].
Defined.

(** ** Order of configuration calls *)

(** X10.  Two configuration calls that assign different members or options,
    and of which at most one appends a header line, can be made in either
    order with the same resulting object.  (Two header-appending calls do
    not commute: the list keeps call order.) *)
Theorem independent_configuration_calls_commute
  (c1 c2 : Config) (h : HttpRequest) :
  independent c1 c2 = true ->
  apply_config (apply_config h c1) c2 = apply_config (apply_config h c2) c1.
Proof.
  destruct h as [t e hs u ua b r eb].
  destruct c1 as [u1|t1|y1|a1|h1|b1 ct1], c2 as [u2|t2|y2|a2|h2|b2 ct2];
    unfold independent; simpl; intros I; try discriminate; try reflexivity;
    unfold set_body;
    try (destruct ct1 as [|x1 r1]); try (destruct ct2 as [|x2 r2]);
    simpl in *; try discriminate; reflexivity.
Qed.

Lemma independent_configuration_calls_commute_witness :
  set_body "b" "text/plain" (set_url "http://example.test/" fresh)
  = set_url "http://example.test/" (set_body "b" "text/plain" fresh) /\
  add_header "A: 1" (set_body "b" EmptyString fresh)
  = set_body "b" EmptyString (add_header "A: 1" fresh).
Proof.
  split.
  - apply (independent_configuration_calls_commute
             (SetUrl "http://example.test/") (SetBody "b" "text/plain") fresh).
    reflexivity.
  - apply (independent_configuration_calls_commute
             (SetBody "b" EmptyString) (AddHeader "A: 1") fresh).
    reflexivity.
Defined.

(** ** The demonstration program *)

Lemma demo_get_result (lib : Engine) (addr : object_id) :
  snd (get lib (Demo.configure_get (construct addr easy_defaults)))
  = exchange_result lib (curl_easy_perform lib (Demo.get_request addr)).
Proof.
  apply (invoke_result GET lib).
  unfold Demo.configure_get.
  apply (wired_apply_config (SetTimeoutMs 5000)).
  apply (wired_apply_config (SetUrl "https://httpbin.org/get")).
  apply wired_construct.
Qed.

Lemma demo_post_result (lib : Engine) (addr : object_id) :
  snd (post lib (Demo.configure_post (construct addr easy_defaults)))
  = exchange_result lib (curl_easy_perform lib (Demo.post_request addr)).
Proof.
  apply (invoke_result POST lib).
  unfold Demo.configure_post.
  apply (wired_apply_config (SetBody Demo.json_x1 "application/json")).
  apply (wired_apply_config (SetTimeoutMs 5000)).
  apply (wired_apply_config (SetUrl "https://httpbin.org/post")).
  apply wired_construct.
Qed.

(** X11.  When the global initialisation, both handle allocations and both
    transfers succeed, [main] throws nothing and inserts into [std::cout],
    in this order, the GET status and body size and the POST status and
    body, each taken from its own exchange.  The GET goes to
    https://httpbin.org/get with a 5000 ms timeout, no header list and no
    body; the POST goes to https://httpbin.org/post with a 5000 ms timeout,
    the single header line Content-Type: application/json and the 7-byte
    body of the raw literal. *)
Theorem main_prints_both_exchanges (w : Demo.World) :
  Demo.global_init_rc w = 0%Z ->
  Demo.req_handle w = true ->
  Demo.post_handle w = true ->
  let o1 := curl_easy_perform (Demo.get_lib w)
              (Demo.get_request (Demo.req_addr w)) in
  let o2 := curl_easy_perform (Demo.post_lib w)
              (Demo.post_request (Demo.post_addr w)) in
  rc o1 = CURLE_OK ->
  rc o2 = CURLE_OK ->
  Demo.main w
  = ([Demo.put_str "GET status: "; Demo.put_long (response_code o1);
      Demo.put_str Demo.endl;
      Demo.put_str "Body size: ";
      Demo.put_size (String.length (received_body (deliveries o1)));
      Demo.put_str (" bytes" ++ Demo.endl);
      Demo.put_str "POST status: "; Demo.put_long (response_code o2);
      Demo.put_str Demo.endl;
      Demo.put_str (received_body (deliveries o2)); Demo.put_str Demo.endl],
     None) /\
  (forall addr,
      let g := Demo.get_request addr in
      opt_url g = Some "https://httpbin.org/get" /\
      opt_timeout_ms g = 5000%Z /\
      opt_httpheader g = None /\
      request_method g = "GET" /\
      request_payload g = no_body) /\
  (forall addr,
      let p := Demo.post_request addr in
      opt_url p = Some "https://httpbin.org/post" /\
      opt_timeout_ms p = 5000%Z /\
      opt_httpheader p = Some ["Content-Type: application/json"] /\
      request_method p = "POST" /\
      request_payload p = post_data Demo.json_x1 7).
Proof.
  intros G H1 H2 o1 o2 R1 R2.
  split; [|split; intros addr; repeat split; reflexivity].
  unfold Demo.main. rewrite G, H1, H2.
  cbn [CurlGlobal_new Z.eqb negb curl_easy_init HttpRequest_new].
  rewrite demo_get_result, demo_post_result. fold o1 o2.
  unfold exchange_result. rewrite R1, R2. reflexivity.
Qed.

Lemma main_prints_both_exchanges_witness :
  Demo.main Demo.world_up
  = ([Demo.put_str "GET status: "; Demo.put_long 200;
      Demo.put_str Demo.endl;
      Demo.put_str "Body size: "; Demo.put_size 2;
      Demo.put_str (" bytes" ++ Demo.endl);
      Demo.put_str "POST status: "; Demo.put_long 200;
      Demo.put_str Demo.endl;
      Demo.put_str "ok"; Demo.put_str Demo.endl],
     None).
Proof.
  exact (proj1 (main_prints_both_exchanges Demo.world_up
                  eq_refl eq_refl eq_refl eq_refl eq_refl)).
Defined.

(** X12.  [main] stops at its first failure and the exception leaves it:
    a failed global initialisation or first handle allocation, or a failed
    GET, ends it before anything is inserted into [std::cout] and before the
    POST object exists, whatever the second exchange would have done; a
    failed second allocation or POST ends it after the two GET lines only. *)
Theorem main_stops_at_first_failure (w : Demo.World) :
  let o1 := curl_easy_perform (Demo.get_lib w)
              (Demo.get_request (Demo.req_addr w)) in
  let o2 := curl_easy_perform (Demo.post_lib w)
              (Demo.post_request (Demo.post_addr w)) in
  let out1 :=
    [Demo.put_str "GET status: "; Demo.put_long (response_code o1);
     Demo.put_str Demo.endl;
     Demo.put_str "Body size: ";
     Demo.put_size (String.length (received_body (deliveries o1)));
     Demo.put_str (" bytes" ++ Demo.endl)] in
  (Demo.global_init_rc w <> 0%Z ->
   Demo.main w = ([], Some (runtime_error "curl_global_init failed"))) /\
  (Demo.global_init_rc w = 0%Z -> Demo.req_handle w = false ->
   Demo.main w = ([], Some (runtime_error "curl_easy_init failed"))) /\
  (Demo.global_init_rc w = 0%Z -> Demo.req_handle w = true ->
   rc o1 <> CURLE_OK ->
   Demo.main w
   = ([], Some (runtime_error
                  ("curl_easy_perform: " ++ diagnostic (Demo.get_lib w) o1)))) /\
  (Demo.global_init_rc w = 0%Z -> Demo.req_handle w = true ->
   rc o1 = CURLE_OK -> Demo.post_handle w = false ->
   Demo.main w = (out1, Some (runtime_error "curl_easy_init failed"))) /\
  (Demo.global_init_rc w = 0%Z -> Demo.req_handle w = true ->
   rc o1 = CURLE_OK -> Demo.post_handle w = true ->
   rc o2 <> CURLE_OK ->
   Demo.main w
   = (out1, Some (runtime_error
                    ("curl_easy_perform: "
                     ++ diagnostic (Demo.post_lib w) o2)))).
Proof.
  intros o1 o2 out1.
  repeat match goal with |- _ /\ _ => split end.
  - intros G. unfold Demo.main, CurlGlobal_new.
    apply Z.eqb_neq in G. now rewrite G.
  - intros G H1. unfold Demo.main. rewrite G, H1. reflexivity.
  - intros G H1 R1. unfold Demo.main. rewrite G, H1.
    cbn [CurlGlobal_new Z.eqb negb curl_easy_init HttpRequest_new].
    rewrite demo_get_result. fold o1. unfold exchange_result.
    apply Z.eqb_neq in R1. now rewrite R1.
  - intros G H1 R1 H2. unfold Demo.main. rewrite G, H1, H2.
    cbn [CurlGlobal_new Z.eqb negb curl_easy_init HttpRequest_new].
    rewrite demo_get_result. fold o1. unfold exchange_result.
    rewrite R1. reflexivity.
  - intros G H1 R1 H2 R2. unfold Demo.main. rewrite G, H1, H2.
    cbn [CurlGlobal_new Z.eqb negb curl_easy_init HttpRequest_new].
    rewrite demo_get_result, demo_post_result. fold o1 o2.
    unfold exchange_result. rewrite R1.
    apply Z.eqb_neq in R2. now rewrite R2.
Qed.

Lemma main_stops_at_first_failure_witness :
  Demo.main Demo.world_get_down
  = ([], Some (runtime_error
                 "curl_easy_perform: Failed to connect to example.test port 80")).
Proof.
  destruct (main_stops_at_first_failure Demo.world_get_down)
    as (_ & _ & H & _).
  refine (eq_trans (H eq_refl eq_refl _) _); [|reflexivity].
  vm_compute. discriminate.
Defined.
